(** * GermanCostCo: the simulation statistics and the rollout optimizer

    A shallow embedding of [scenario_runner.py].  Python floats are read as
    exact numbers: rationals ([Q]) wherever the code only adds, multiplies,
    divides and compares, and real numbers ([R]) in the household simulation,
    where [np.exp] and [np.log] occur.  Python integers are [Z]; bit masks
    use [Z.lor], [Z.land], [Z.lnot] and [Z.shiftl].  Data frames are lists of
    records, one record per row, in index order. *)

From Stdlib Require Import ZArith QArith Qminmax Qround Qabs Qpower Lia Lqa.
From Stdlib Require Import List String Permutation Bool Sorted.
From stdpp Require Import base gmap strings list.
From Stdlib Require Import Reals Lra.
Import ListNotations.

(** ** Numeric helpers shared by the statistics and the optimizer *)

Definition Qgtb (a b : Q) : bool := negb (Qle_bool a b).
Definition Qltb (a b : Q) : bool := negb (Qle_bool b a).

(** Python's [max(a, b)]: the first argument unless the second is larger. *)
Definition py_max (a b : Q) : Q := if Qgtb b a then b else a.

Fixpoint qsum (l : list Q) : Q :=
  match l with
  | [] => 0%Q
  | x :: t => (x + qsum t)%Q
  end.

Definition qmean (l : list Q) : Q := (qsum l / inject_Z (Z.of_nat (length l)))%Q.

Fixpoint zsum (l : list Z) : Z :=
  match l with
  | [] => 0%Z
  | x :: t => (x + zsum t)%Z
  end.

(** [bin(int(value)).count("1")]: the ones in the binary numeral of the
    magnitude ([bin] prints a negative number as a sign and its magnitude). *)
Fixpoint pos_ones (p : positive) : nat :=
  match p with
  | xH => 1
  | xO q => pos_ones q
  | xI q => S (pos_ones q)
  end.

Definition count_bits (value : Z) : Z :=
  match value with
  | Z0 => 0%Z
  | Zpos p => Z.of_nat (pos_ones p)
  | Zneg p => Z.of_nat (pos_ones p)
  end.

(** [itertools.combinations(l, k)], in its lexicographic order. *)
Fixpoint combinations {A : Type} (l : list A) (k : nat) : list (list A) :=
  match k, l with
  | O, _ => [[]]
  | S _, [] => []
  | S k', x :: t => List.map (cons x) (combinations t k') ++ combinations t k
  end.

(** A stable insertion sort: [before y x] says that [y] goes strictly before
    [x]; an element stays in front of the later elements it ties with, as
    with [list.sort] and with pandas' multi-key [sort_values]. *)
Section StableSort.
Context {A : Type} (before : A -> A -> bool).

Fixpoint insert_sorted (x : A) (l : list A) : list A :=
  match l with
  | [] => [x]
  | y :: t => if before y x then y :: insert_sorted x t else x :: y :: t
  end.

Fixpoint stable_sort (l : list A) : list A :=
  match l with
  | [] => []
  | x :: t => insert_sorted x (stable_sort t)
  end.
End StableSort.

(** [Series.unique()]: the distinct values in order of first appearance. *)
Fixpoint unique (l : list string) : list string :=
  match l with
  | [] => []
  | x :: t => x :: List.filter (fun y => negb (String.eqb y x)) (unique t)
  end.

(** Position of [s] in [l] (the dictionary built by [enumerate]). *)
Fixpoint index_of (s : string) (l : list string) : nat :=
  match l with
  | [] => O
  | x :: t => if String.eqb x s then O else S (index_of s t)
  end.

(** ** Rollout optimizer: data model *)

Inductive BoardSignal := GO | CONDITIONAL | NO_GO.

Inductive OptimizationStatus :=
| UNASSIGNED
| NO_FEASIBLE_GO_OR_CONDITIONAL_CITIES
| INFEASIBLE_CONSTRAINT_SET
| HARD_CONSTRAINED_SELECTION.

Inductive LaunchWave := Wave_1_Pilot | Wave_2_Scale | Wave_3_Option | Hold.

(** One row of [city_recommendation_df] as the scoring stage leaves it
    (the columns the optimizer reads). *)
Record CityRecommendation := {
  city : string;
  state : string;
  board_signal : BoardSignal;
  portfolio_objective_eur : Q;
  risk_adjusted_city_score : Q;
  city_prob_loss : Q;
  capex_estimate_eur : Q
}.

(** One row of the plan: the recommendation and the columns added for the
    rollout.  [None] stands for NaN; [city_rank] is the row's position. *)
Record PlanRow := {
  rec : CityRecommendation;
  rollout_year : Z;
  launch_wave : LaunchWave;
  year_capex_budget_eur : option Q;
  year_capex_used_eur : option Q;
  year_risk_cap : option Q;
  year_loss_risk_avg : option Q;
  selected_by_optimizer : bool;
  optimization_status : OptimizationStatus
}.

(** [portfolio_budget_assumptions] and [portfolio_optimization_constraints]. *)
Record PortfolioConfig := {
  annual_capex_budget_eur : list Q;
  budget_reserve_ratio : Q;
  max_new_cities_per_year : list Z;
  annual_loss_risk_cap_cfg : list Q;
  min_distinct_states_first3_years : Z
}.

Record Bundle := {
  ids : list nat;
  mask : Z;
  state_mask : Z;
  score : Q;
  capex_sum : Q;
  risk_avg : Q
}.

(** The local variables of [build_city_portfolio] that the bundle
    enumeration and the yearly loop read. *)
Record OptContext := {
  planning_years : nat;
  annual_budgets : list Q;
  max_new_per_year : list Z;
  annual_loss_risk_cap : list Q;
  usable_budgets : list Q;
  capex_arr : list Q;
  loss_arr : list Q;
  objective_arr : list Q;
  state_mask_arr : list Z;
  df_index_arr : list nat;
  n_candidates : nat;
  first3_years : nat;
  required_states : Z
}.

(** The state the yearly loop updates in place. *)
Record OptState := {
  launched_mask : Z;
  state_mask_first3 : Z;
  schedule : list (list nat);
  optimizer_total_score : Q
}.

(** ** Rollout optimizer: operations *)

Definition is_candidate (r : CityRecommendation) : bool :=
  match board_signal r with
  | NO_GO => false
  | _ => true
  end.

(** [candidate_df["df_index"]]: the positions of the candidate rows. *)
Fixpoint candidate_indices (i : nat) (recs : list CityRecommendation) : list nat :=
  match recs with
  | [] => []
  | r :: t =>
      if is_candidate r then i :: candidate_indices (S i) t
      else candidate_indices (S i) t
  end.

(** [sorted(candidate_df["state"].unique().tolist())]. *)
Definition state_list_of (candidate_df : list CityRecommendation) : list string :=
  stable_sort (fun a b => negb (String.leb b a)) (unique (List.map state candidate_df)).

(** [1 << state_to_bit[s]].  The code keeps these masks in a 64-bit numpy
    array, which holds them exactly for up to 63 candidate states; the model
    keeps Python's unbounded integers throughout. *)
Definition state_bit (state_list : list string) (s : string) : Z :=
  Z.shiftl 1 (Z.of_nat (index_of s state_list)).

Definition make_context (cfg : PortfolioConfig) (recs : list CityRecommendation)
  : OptContext :=
  let years :=
    Nat.min (length (annual_capex_budget_eur cfg))
      (Nat.min (length (max_new_cities_per_year cfg))
         (length (annual_loss_risk_cap_cfg cfg))) in
  let budgets := firstn years (annual_capex_budget_eur cfg) in
  let candidate_df := List.filter is_candidate recs in
  let state_list := state_list_of candidate_df in
  {| planning_years := years;
     annual_budgets := budgets;
     max_new_per_year := firstn years (max_new_cities_per_year cfg);
     annual_loss_risk_cap := firstn years (annual_loss_risk_cap_cfg cfg);
     usable_budgets :=
       List.map (fun b => (b * py_max 0 (1 - budget_reserve_ratio cfg))%Q) budgets;
     capex_arr := List.map capex_estimate_eur candidate_df;
     loss_arr := List.map city_prob_loss candidate_df;
     objective_arr := List.map portfolio_objective_eur candidate_df;
     state_mask_arr := List.map (fun r => state_bit state_list (state r)) candidate_df;
     df_index_arr := candidate_indices 0 recs;
     n_candidates := length candidate_df;
     first3_years := Nat.min 3 years;
     required_states :=
       Z.min (min_distinct_states_first3_years cfg) (Z.of_nat (length state_list)) |}.

Definition empty_bundle : Bundle :=
  {| ids := []; mask := 0; state_mask := 0; score := 0; capex_sum := 0; risk_avg := 0 |}.

Definition take_q (arr : list Q) (combo : list nat) : list Q :=
  List.map (fun i => nth i arr 0%Q) combo.

Definition combo_mask (combo : list nat) : Z :=
  fold_left (fun m cid => Z.lor m (Z.shiftl 1 (Z.of_nat cid))) combo 0%Z.

Definition combo_state_mask (ctx : OptContext) (combo : list nat) : Z :=
  fold_left (fun m cid => Z.lor m (nth cid (state_mask_arr ctx) 0%Z)) combo 0%Z.

(** The body of the loop over [combinations]: [None] is [continue]. *)
Definition make_bundle (ctx : OptContext) (budget risk_cap : Q) (combo : list nat)
  : option Bundle :=
  let capex := qsum (take_q (capex_arr ctx) combo) in
  if Qgtb capex budget then None
  else
    let risk := qmean (take_q (loss_arr ctx) combo) in
    if Qgtb risk risk_cap then None
    else Some {| ids := combo;
                 mask := combo_mask combo;
                 state_mask := combo_state_mask ctx combo;
                 score := qsum (take_q (objective_arr ctx) combo);
                 capex_sum := capex;
                 risk_avg := risk |}.

Definition bundles_of_size (ctx : OptContext) (budget risk_cap : Q) (k : nat)
  : list Bundle :=
  omap (make_bundle ctx budget risk_cap) (combinations (seq 0 (n_candidates ctx)) k).

(** [yearly_bundles[year]] for a 1-based [year]. *)
Definition yearly_bundles (ctx : OptContext) (year : nat) : list Bundle :=
  let max_new := nth (year - 1) (max_new_per_year ctx) 0%Z in
  let budget := nth (year - 1) (usable_budgets ctx) 0%Q in
  let risk_cap := nth (year - 1) (annual_loss_risk_cap ctx) 0%Q in
  let sizes := seq 1 (Z.to_nat (Z.min max_new (Z.of_nat (n_candidates ctx)))) in
  stable_sort (fun y x => Qgtb (score y) (score x))
    (empty_bundle :: flat_map (bundles_of_size ctx budget risk_cap) sizes).

Definition available_state_mask (ctx : OptContext) (next_launched : Z) : Z :=
  fold_left
    (fun m rid =>
       if Z.eqb (Z.land next_launched (Z.shiftl 1 (Z.of_nat rid))) 0
       then Z.lor m (nth rid (state_mask_arr ctx) 0%Z)
       else m)
    (seq 0 (n_candidates ctx)) 0%Z.

(** The two [continue] tests of the diversification window. *)
Definition window_ok (ctx : OptContext) (year : nat) (st : OptState) (bundle : Bundle)
  : bool :=
  let next_launched := Z.lor (launched_mask st) (mask bundle) in
  let next_state_mask := Z.lor (state_mask_first3 st) (state_mask bundle) in
  let years_left := (Z.of_nat (first3_years ctx) - Z.of_nat year)%Z in
  let unseen_state_count :=
    count_bits (Z.land (available_state_mask ctx next_launched) (Z.lnot next_state_mask)) in
  let max_new_states_possible :=
    (count_bits next_state_mask
     + Z.min unseen_state_count
         (if (0 <? years_left)%Z
          then zsum (firstn (first3_years ctx - year) (skipn year (max_new_per_year ctx)))
          else 0))%Z in
  if (max_new_states_possible <? required_states ctx)%Z then false
  else if Nat.eqb year (first3_years ctx)
          && (count_bits next_state_mask <? required_states ctx)%Z then false
  else true.

(** Whether the scan of a year keeps [bundle] (no [continue] is taken). *)
Definition survives (ctx : OptContext) (year : nat) (st : OptState) (bundle : Bundle)
  : bool :=
  if negb (Z.eqb (Z.land (mask bundle) (launched_mask st)) 0) then false
  else if Nat.leb year (first3_years ctx) then window_ok ctx year st bundle
  else true.

Definition bonus_score (ctx : OptContext) (year : nat) (st : OptState) (bundle : Bundle)
  : Q :=
  if Nat.leb year (first3_years ctx) then
    let new_states :=
      count_bits (Z.land (state_mask bundle) (Z.lnot (state_mask_first3 st))) in
    (score bundle
     + inject_Z (new_states
                 * (400000 * (Z.of_nat (first3_years ctx) - Z.of_nat year + 1))))%Q
  else score bundle.

(** The scan of one year: [None] is [best_bundle is None], and the score of
    the first bundle kept always beats the initial minus infinity. *)
Definition scan_step (ctx : OptContext) (year : nat) (st : OptState)
  (best : option (Bundle * Q)) (bundle : Bundle) : option (Bundle * Q) :=
  if survives ctx year st bundle then
    let bundle_score := bonus_score ctx year st bundle in
    match best with
    | None => Some (bundle, bundle_score)
    | Some (_, best_bundle_score) =>
        if Qgtb bundle_score best_bundle_score then Some (bundle, bundle_score)
        else best
    end
  else best.

Definition select_best_bundle (ctx : OptContext) (year : nat) (st : OptState)
  : option Bundle :=
  fst <$> fold_left (scan_step ctx year st) (yearly_bundles ctx year) None.

Definition commit (ctx : OptContext) (year : nat) (st : OptState) (best_bundle : Bundle)
  : OptState :=
  {| launched_mask := Z.lor (launched_mask st) (mask best_bundle);
     state_mask_first3 :=
       if Nat.leb year (first3_years ctx)
       then Z.lor (state_mask_first3 st) (state_mask best_bundle)
       else state_mask_first3 st;
     schedule := schedule st ++ [ids best_bundle];
     optimizer_total_score := (optimizer_total_score st + score best_bundle)%Q |}.

(** The loop over the years; the second component is the year at which the
    loop broke off, if it did. *)
Fixpoint run_years (ctx : OptContext) (years : list nat) (st : OptState)
  : OptState * option nat :=
  match years with
  | [] => (st, None)
  | year :: rest =>
      match select_best_bundle ctx year st with
      | None => (st, Some year)
      | Some best_bundle => run_years ctx rest (commit ctx year st best_bundle)
      end
  end.

Definition initial_state : OptState :=
  {| launched_mask := 0; state_mask_first3 := 0; schedule := [];
     optimizer_total_score := 0 |}.

Definition run_optimizer (ctx : OptContext) : OptState * option nat :=
  run_years ctx (seq 1 (planning_years ctx)) initial_state.

Definition optimization_feasible (ctx : OptContext) : bool :=
  let '(st, broke) := run_optimizer ctx in
  match broke with
  | Some _ => false
  | None =>
      negb (Nat.leb 1 (first3_years ctx)
            && (count_bits (state_mask_first3 st) <? required_states ctx)%Z)
  end.

Definition initial_row (r : CityRecommendation) : PlanRow :=
  {| rec := r; rollout_year := (-1)%Z; launch_wave := Hold;
     year_capex_budget_eur := None; year_capex_used_eur := None;
     year_risk_cap := None; year_loss_risk_avg := None;
     selected_by_optimizer := false; optimization_status := UNASSIGNED |}.

Definition set_status (s : OptimizationStatus) (row : PlanRow) : PlanRow :=
  {| rec := rec row; rollout_year := rollout_year row; launch_wave := launch_wave row;
     year_capex_budget_eur := year_capex_budget_eur row;
     year_capex_used_eur := year_capex_used_eur row;
     year_risk_cap := year_risk_cap row;
     year_loss_risk_avg := year_loss_risk_avg row;
     selected_by_optimizer := selected_by_optimizer row;
     optimization_status := s |}.

(** The seven [.at] assignments of the write-back. *)
Definition assign_row (year : nat) (gross_budget capex risk_cap risk : Q)
  (row : PlanRow) : PlanRow :=
  {| rec := rec row; rollout_year := Z.of_nat year; launch_wave := launch_wave row;
     year_capex_budget_eur := Some gross_budget;
     year_capex_used_eur := Some capex;
     year_risk_cap := Some risk_cap;
     year_loss_risk_avg := Some risk;
     selected_by_optimizer := true;
     optimization_status := HARD_CONSTRAINED_SELECTION |}.

Definition write_combo (ctx : OptContext) (year : nat) (combo : list nat)
  (plan : list PlanRow) : list PlanRow :=
  let gross_budget := nth (year - 1) (annual_budgets ctx) 0%Q in
  let risk_cap := nth (year - 1) (annual_loss_risk_cap ctx) 0%Q in
  let capex := qsum (take_q (capex_arr ctx) combo) in
  let risk := qmean (take_q (loss_arr ctx) combo) in
  fold_left
    (fun p opt_id =>
       alter (assign_row year gross_budget capex risk_cap risk)
         (nth opt_id (df_index_arr ctx) O) p)
    combo plan.

(** [for year, combo in enumerate(schedule, start=1)], from [year] on.  An
    empty [combo] writes nothing, which is the [continue] of the code. *)
Fixpoint write_schedule (ctx : OptContext) (year : nat) (sched : list (list nat))
  (plan : list PlanRow) : list PlanRow :=
  match sched with
  | [] => plan
  | combo :: rest =>
      if Nat.ltb (planning_years ctx) year then plan
      else write_schedule ctx (S year) rest (write_combo ctx year combo plan)
  end.

Definition wave_of_year (y : Z) : LaunchWave :=
  if (y =? 1)%Z then Wave_1_Pilot
  else if ((y =? 2) || (y =? 3))%Z then Wave_2_Scale
  else if (0 <? y)%Z then Wave_3_Option
  else Hold.

Definition set_wave (row : PlanRow) : PlanRow :=
  {| rec := rec row; rollout_year := rollout_year row;
     launch_wave := wave_of_year (rollout_year row);
     year_capex_budget_eur := year_capex_budget_eur row;
     year_capex_used_eur := year_capex_used_eur row;
     year_risk_cap := year_risk_cap row;
     year_loss_risk_avg := year_loss_risk_avg row;
     selected_by_optimizer := selected_by_optimizer row;
     optimization_status := optimization_status row |}.

Definition rollout_sort (row : PlanRow) : Z :=
  if (rollout_year row <? 0)%Z then 99%Z else rollout_year row.

(** Strict order of the final [sort_values]: year ascending, then objective
    and risk-adjusted score descending. *)
Definition plan_before (a b : PlanRow) : bool :=
  if (rollout_sort a <? rollout_sort b)%Z then true
  else if (rollout_sort b <? rollout_sort a)%Z then false
  else if Qgtb (portfolio_objective_eur (rec a)) (portfolio_objective_eur (rec b)) then true
  else if Qgtb (portfolio_objective_eur (rec b)) (portfolio_objective_eur (rec a)) then false
  else Qgtb (risk_adjusted_city_score (rec a)) (risk_adjusted_city_score (rec b)).

(** The plan before its final ordering: lines 639 to 807. *)
Definition assign_rollout (cfg : PortfolioConfig) (recs : list CityRecommendation)
  : list PlanRow :=
  let plan0 := List.map initial_row recs in
  let ctx := make_context cfg recs in
  let plan1 :=
    match List.filter is_candidate recs with
    | [] => List.map (set_status NO_FEASIBLE_GO_OR_CONDITIONAL_CITIES) plan0
    | _ :: _ =>
        if optimization_feasible ctx
        then write_schedule ctx 1 (schedule (fst (run_optimizer ctx))) plan0
        else List.map (set_status INFEASIBLE_CONSTRAINT_SET) plan0
    end in
  List.map set_wave plan1.

(** The optimizer stage of [build_city_portfolio]: [city_plan_df] from the
    scored recommendation table and the constraints. *)
Definition build_city_portfolio (cfg : PortfolioConfig) (recs : list CityRecommendation)
  : list PlanRow :=
  stable_sort plan_before (assign_rollout cfg recs).

(** ** Replication rows and their summary *)

(** One row of [replication_df]; the number type is a parameter, the
    simulation fills it with reals and the statistics read rationals. *)
Module Replication.
Record Row {num : Type} := {
  scenario : string;
  strategy : string;
  membership_fee_eur : num;
  first_year_subsidy_eur : num;
  effective_fee_eur : num;
  info_cues_used : num;
  consumer_climate_index : num;
  savings_rate_percent : num;
  inflation_percent : num;
  competitor_penalty_percent : num;
  adoption_rate : num;
  projected_member_households : num;
  projected_member_spend_eur : num;
  membership_revenue_eur : num;
  merchandise_contribution_eur : num;
  total_contribution_eur : num;
  break_even_monthly_spend_eur : num;
  replication_id : option nat
}.
Arguments Row : clear implicits.
End Replication.

Module Summary.
Record Row := {
  scenario : string;
  strategy : string;
  mean_contribution_eur : Q;
  std_contribution_eur : Q;
  p10_contribution_eur : Q;
  p50_contribution_eur : Q;
  p90_contribution_eur : Q;
  cvar5_contribution_eur : Q;
  prob_loss : Q;
  prob_meet_hurdle : Q;
  mean_adoption_rate : Q;
  adoption_ci_low : Q;
  adoption_ci_high : Q;
  mean_competitor_penalty_pct : Q;
  mean_break_even_monthly_eur : Q
}.
End Summary.

Module Decision.
Record Row := {
  strategy : string;
  weighted_mean_contribution_eur : Q;
  mean_std_contribution_eur : Q;
  weighted_prob_loss : Q;
  weighted_cvar5_contribution_eur : Q;
  weighted_prob_meet_hurdle : Q;
  base_case_contribution_eur : Q;
  base_case_adoption_rate : Q;
  risk_adjusted_score : Q;
  rank : nat
}.
End Decision.

(** [groupby(..., sort=False)]: the groups in order of first appearance,
    each with its rows in table order. *)
Section GroupBy.
Context {A K : Type} (key_eqb : K -> K -> bool) (key : A -> K).

Fixpoint add_to_group (x : A) (groups : list (K * list A)) : list (K * list A) :=
  match groups with
  | [] => [(key x, [x])]
  | (k, rows) :: rest =>
      if key_eqb k (key x) then (k, rows ++ [x]) :: rest
      else (k, rows) :: add_to_group x rest
  end.

Definition group_by (l : list A) : list (K * list A) :=
  fold_left (fun groups x => add_to_group x groups) l [].
End GroupBy.

(** [Series.quantile(q)] with linear interpolation between the two order
    statistics around the position [q * (n - 1)]. *)
Definition quantile (xs : list Q) (q : Q) : Q :=
  let sorted := stable_sort Qltb xs in
  let n := length xs in
  let h := (q * inject_Z (Z.of_nat (n - 1)))%Q in
  let j := Z.to_nat (Qfloor h) in
  let g := (h - inject_Z (Qfloor h))%Q in
  let lo := nth j sorted 0%Q in
  let hi := nth (Nat.min (S j) (n - 1)) sorted 0%Q in
  (lo + (hi - lo) * g)%Q.



Definition cvar5_of (contrib : list Q) : Q :=
  let q05 := quantile contrib (5 # 100) in
  match List.filter (fun x => Qle_bool x q05) contrib with
  | [] => q05
  | tail => qmean tail
  end.




(** ** Decision matrix *)

(** Python's [min(a, b)]: the first argument unless the second is smaller. *)
Definition py_min (a b : Q) : Q := if Qltb b a then b else a.

Fixpoint qdot (xs ws : list Q) : Q :=
  match xs, ws with
  | x :: xt, w :: wt => (x * w + qdot xt wt)%Q
  | _, _ => 0%Q
  end.

(** The column [w] of one strategy group: the configured probability of each
    row's scenario over the sum, the sum replaced by 1 when it is zero. *)
Definition scenario_weights (scenario_probs : gmap string Q) (group : list Summary.Row)
  : list Q :=
  let scenario_probability :=
    List.map (fun r => default 0%Q (scenario_probs !! Summary.scenario r)) group in
  let total := qsum scenario_probability in
  let total_prob := if Qeq_bool total 0 then 1%Q else total in
  List.map (fun p => (p / total_prob)%Q) scenario_probability.

Definition weighted (scenario_probs : gmap string Q) (group : list Summary.Row)
  (column : Summary.Row -> Q) : Q :=
  qdot (List.map column group) (scenario_weights scenario_probs group).

(** One pass of the loop over the strategy groups; [None] is the
    [IndexError] of [.iloc[0]] when the group has no base-case row. *)
Definition decision_row (scenario_probs : gmap string Q)
  (g : string * list Summary.Row) : option Decision.Row :=
  let group := snd g in
  let weighted_mean_contrib := weighted scenario_probs group Summary.mean_contribution_eur in
  let mean_std := weighted scenario_probs group Summary.std_contribution_eur in
  let weighted_prob_loss := weighted scenario_probs group Summary.prob_loss in
  let weighted_cvar5 := weighted scenario_probs group Summary.cvar5_contribution_eur in
  let weighted_hurdle := weighted scenario_probs group Summary.prob_meet_hurdle in
  match List.filter (fun r => String.eqb (Summary.scenario r) "base_case") group with
  | [] => None
  | base :: _ =>
      Some {| Decision.strategy := fst g;
              Decision.weighted_mean_contribution_eur := weighted_mean_contrib;
              Decision.mean_std_contribution_eur := mean_std;
              Decision.weighted_prob_loss := weighted_prob_loss;
              Decision.weighted_cvar5_contribution_eur := weighted_cvar5;
              Decision.weighted_prob_meet_hurdle := weighted_hurdle;
              Decision.base_case_contribution_eur := Summary.mean_contribution_eur base;
              Decision.base_case_adoption_rate := Summary.mean_adoption_rate base;
              Decision.risk_adjusted_score :=
                (weighted_mean_contrib
                 - (4 # 10) * mean_std
                 - (20 # 100) * Qabs (py_min weighted_cvar5 0)
                 - weighted_prob_loss * 2500000)%Q;
              Decision.rank := O |}
  end.

(** [decision["rank"] = np.arange(1, len(decision) + 1)] at position [i]. *)
Definition set_rank (i : nat) (d : Decision.Row) : Decision.Row :=
  {| Decision.strategy := Decision.strategy d;
     Decision.weighted_mean_contribution_eur := Decision.weighted_mean_contribution_eur d;
     Decision.mean_std_contribution_eur := Decision.mean_std_contribution_eur d;
     Decision.weighted_prob_loss := Decision.weighted_prob_loss d;
     Decision.weighted_cvar5_contribution_eur := Decision.weighted_cvar5_contribution_eur d;
     Decision.weighted_prob_meet_hurdle := Decision.weighted_prob_meet_hurdle d;
     Decision.base_case_contribution_eur := Decision.base_case_contribution_eur d;
     Decision.base_case_adoption_rate := Decision.base_case_adoption_rate d;
     Decision.risk_adjusted_score := Decision.risk_adjusted_score d;
     Decision.rank := S i |}.

(** The groups are scored in order, sorted by descending score (ties keep
    their order) and ranked from 1. *)
Definition build_decision_matrix (summary_df : list Summary.Row)
  (scenario_probs : gmap string Q) : option (list Decision.Row) :=
  rows ← mapM (decision_row scenario_probs)
           (group_by String.eqb Summary.strategy summary_df);
  Some (imap set_rank
          (stable_sort
             (fun y x => Qgtb (Decision.risk_adjusted_score y) (Decision.risk_adjusted_score x))
             rows)).

(** ** Household simulation (real-number model) *)

Module Scenario.
Record Cfg := {
  consumer_climate_index : R;
  savings_rate_percent : R;
  inflation_percent : R;
  discount_shift : R
}.
End Scenario.

Module Strategy.
Record Cfg := {
  membership_fee_eur : R;
  first_year_subsidy_eur : R;
  incremental_marketing_info_cues : R
}.
End Strategy.

(** The keys of the configuration that the simulation reads.  The two
    dictionaries iterated with [.items()] are lists in insertion order. *)
Record SimConfig := {
  employees_per_warehouse : R;
  hours_per_employee_per_year : R;
  merchandise_gross_margin_percent : R;
  annual_fixed_opex_eur : R;
  min_wage_eur_per_hour : Z -> R;
  standard_german_ad_information_cues_min : R;
  downside_response_uplift_percent : R;
  top4_market_concentration_percent : R;
  competitor_response_base_percent : R;
  response_volatility_percent : R;
  addressable_households : R;
  membership_fee_sensitivity : R;
  yearly_spend_distribution_mean_eur : R;
  yearly_spend_distribution_sigma : R;
  bulk_discount_distribution_min : R;
  bulk_discount_distribution_mode : R;
  bulk_discount_distribution_max : R;
  n_households_monte_carlo : nat;
  n_replications : nat;
  random_seed : Z;
  macro_scenarios : list (string * Scenario.Cfg);
  strategy_options : list (string * Strategy.Cfg)
}.

(** [GermanConsumer]: the cultural indices and macro defaults it reads. *)
Record GermanConsumer := {
  indulgence : R;
  uncertainty_avoidance : R;
  long_term_orientation : R;
  macro_consumer_climate_index : R;
  macro_savings_rate_percent : R
}.

Definition INFO_CUE_THRESHOLD : R := 7%R.

(** numpy's random interface as the engine uses it.  A generator made from
    an integer seed is a function of the seed alone; only a missing seed
    makes numpy read the operating system's entropy. *)
Class NumpyRandom := {
  generator : Type;
  entropy : Type;
  default_rng : option Z -> entropy -> generator;
  lognormal : R -> R -> nat -> generator -> list R * generator;
  triangular : R -> R -> R -> nat -> generator -> list R * generator;
  normal : R -> R -> nat -> generator -> list R * generator;
  normal1 : R -> R -> generator -> R * generator;
  default_rng_seeded :
    forall (seed : Z) (e1 e2 : entropy),
      default_rng (Some seed) e1 = default_rng (Some seed) e2
}.

Definition rsum (l : list R) : R := fold_right Rplus 0%R l.
Definition rmean (l : list R) : R := (rsum l / INR (length l))%R.

(** [np.clip(x, lo, hi)]. *)
Definition clip (x lo hi : R) : R := Rmin (Rmax x lo) hi.

(** [arr[mask]]: the entries whose mask is set. *)
Definition select (xs : list R) (mask : list bool) : list R :=
  List.map fst (List.filter snd (combine xs mask)).

(** Python's [round(x, 3)]: to the nearest thousandth, ties to even. *)
Definition round_half_even (x : R) : Z :=
  let f := Int_part x in
  let d := (x - IZR f)%R in
  if Rlt_dec d (1 / 2) then f
  else if Rlt_dec (1 / 2) d then (f + 1)%Z
  else if Z.even f then f else (f + 1)%Z.

Definition round3 (x : R) : R := (IZR (round_half_even (x * 1000)) / 1000)%R.

Definition calculate_impulse_resistance (consumer : GermanConsumer)
  (consumer_climate_override savings_rate_override : option R) : R :=
  let consumer_climate :=
    default (macro_consumer_climate_index consumer) consumer_climate_override in
  let savings_rate :=
    default (macro_savings_rate_percent consumer) savings_rate_override in
  let indulgence_penalty := ((100 - indulgence consumer) / 100)%R in
  let risk_penalty := (uncertainty_avoidance consumer / 100)%R in
  let future_orientation_penalty := (long_term_orientation consumer / 100)%R in
  let base_resistance :=
    (7 / 10 + (7 / 10) * indulgence_penalty + (3 / 10) * risk_penalty
     + (25 / 100) * future_orientation_penalty)%R in
  round3
    (if Rlt_dec consumer_climate (-20) then
       if Rlt_dec 15 savings_rate then (base_resistance * (15 / 10))%R
       else base_resistance
     else base_resistance).

Definition calculate_labor_cost_per_warehouse (config : SimConfig) (year : Z) : R :=
  (min_wage_eur_per_hour config year
   * employees_per_warehouse config
   * hours_per_employee_per_year config)%R.

(** The pair is [(break_even_yearly_spend, break_even_monthly_spend)]. *)
Definition calculate_membership_break_even
  (membership_fee bulk_discount inflation_rate : R) : R * R :=
  let break_even_yearly :=
    (membership_fee * (1 + inflation_rate) / Rmax bulk_discount (1 / 1000))%R in
  (break_even_yearly, (break_even_yearly / 12)%R).

Definition generate_draws `{NumpyRandom} (config : SimConfig)
  (scenario_cfg : Scenario.Cfg) (rng : generator)
  : (list R * list R * list R) * generator :=
  let n := n_households_monte_carlo config in
  let mean_target := yearly_spend_distribution_mean_eur config in
  let sigma := yearly_spend_distribution_sigma config in
  let mu := (ln mean_target - sigma * sigma / 2)%R in
  let '(spends, rng1) := lognormal mu sigma n rng in
  let shift := Scenario.discount_shift scenario_cfg in
  let d_min := Rmax (2 / 100) (bulk_discount_distribution_min config + shift) in
  let d_mode := Rmax (d_min + 1 / 1000) (bulk_discount_distribution_mode config + shift) in
  let d_max := Rmax (d_mode + 1 / 1000) (bulk_discount_distribution_max config + shift) in
  let '(discounts, rng2) := triangular d_min d_mode d_max n rng1 in
  let '(noise, rng3) := normal 0 (6 / 100) n rng2 in
  ((spends, discounts, noise), rng3).

Definition effective_fee_of (strategy_cfg : Strategy.Cfg) : R :=
  Rmax 0 (Strategy.membership_fee_eur strategy_cfg
          - Strategy.first_year_subsidy_eur strategy_cfg).

Definition info_cues_of (config : SimConfig) (strategy_cfg : Strategy.Cfg) : R :=
  (standard_german_ad_information_cues_min config - 2
   + Strategy.incremental_marketing_info_cues strategy_cfg)%R.

Definition competitor_penalty_of (config : SimConfig) (strategy_cfg : Strategy.Cfg)
  (scenario_name : string) (competitor_shock : R) : R :=
  let effective_fee := effective_fee_of strategy_cfg in
  let info_cues := info_cues_of config strategy_cfg in
  let scenario_competition_uplift :=
    if String.eqb scenario_name "downside_stress"
    then (downside_response_uplift_percent config / 100)%R
    else if String.eqb scenario_name "upside_recovery"
    then (- (35 / 100) * (downside_response_uplift_percent config / 100))%R
    else 0%R in
  let fee_exposure := (Rmax 0 ((effective_fee - 35) / 100) * (2 / 100))%R in
  let concentration_drag :=
    (top4_market_concentration_percent config / 100 * (2 / 1000))%R in
  let info_mitigation := (Rmax 0 (info_cues - INFO_CUE_THRESHOLD) * (15 / 10000))%R in
  clip (competitor_response_base_percent config / 100
        + scenario_competition_uplift + fee_exposure + concentration_drag
        - info_mitigation + competitor_shock)%R 0 (8 / 100).

(** The array [latent] of [evaluate_strategy]. *)
Definition latent_scores (config : SimConfig) (consumer : GermanConsumer)
  (strategy_cfg : Strategy.Cfg) (scenario_name : string) (scenario_cfg : Scenario.Cfg)
  (spends discounts noise : list R) (competitor_shock : R) : list R :=
  let effective_fee := effective_fee_of strategy_cfg in
  let info_cues := info_cues_of config strategy_cfg in
  let resistance :=
    calculate_impulse_resistance consumer
      (Some (Scenario.consumer_climate_index scenario_cfg))
      (Some (Scenario.savings_rate_percent scenario_cfg)) in
  let competitor_penalty :=
    competitor_penalty_of config strategy_cfg scenario_name competitor_shock in
  let info_density_boost := ((info_cues - INFO_CUE_THRESHOLD) * (18 / 100))%R in
  let fee_term := (- (effective_fee * membership_fee_sensitivity config))%R in
  let resistance_term := (- (85 / 100) * resistance)%R in
  let competitor_term := (- (competitor_penalty * 8))%R in
  List.map
    (fun '(s, d, e) =>
       ((s * d - effective_fee) / 220 + info_density_boost + fee_term
        + resistance_term + competitor_term + e)%R)
    (combine (combine spends discounts) noise).

Definition logistic (latent : R) : R := (1 / (1 + exp (- clip latent (-30) 30)))%R.

(** One entry of [adopted = probs > 0.5]. *)
Definition adopts (prob : R) : bool := if Rlt_dec (1 / 2) prob then true else false.

Definition evaluate_strategy (config : SimConfig) (consumer : GermanConsumer)
  (strategy_name : string) (strategy_cfg : Strategy.Cfg)
  (scenario_name : string) (scenario_cfg : Scenario.Cfg)
  (spends discounts noise : list R) (competitor_shock : R)
  : Replication.Row R * list R :=
  let fee := Strategy.membership_fee_eur strategy_cfg in
  let subsidy := Strategy.first_year_subsidy_eur strategy_cfg in
  let effective_fee := effective_fee_of strategy_cfg in
  let info_cues := info_cues_of config strategy_cfg in
  let competitor_penalty :=
    competitor_penalty_of config strategy_cfg scenario_name competitor_shock in
  let latent :=
    latent_scores config consumer strategy_cfg scenario_name scenario_cfg
      spends discounts noise competitor_shock in
  let probs := List.map logistic latent in
  let adopted := List.map adopts probs in
  let adoption_rate := rmean (List.map (fun b : bool => if b then 1%R else 0%R) adopted) in
  let projected_member_households := (adoption_rate * addressable_households config)%R in
  let any_adopted := existsb (fun b : bool => b) adopted in
  let adopted_spend_mean := if any_adopted then rmean (select spends adopted) else 0%R in
  let adopted_discount_mean :=
    if any_adopted then rmean (select discounts adopted) else rmean discounts in
  let projected_member_spend :=
    (projected_member_households * adopted_spend_mean * (1 - competitor_penalty))%R in
  let membership_revenue := (projected_member_households * effective_fee)%R in
  let gross_profit_before_discount :=
    (projected_member_spend * (merchandise_gross_margin_percent config / 100))%R in
  let discount_cost := (projected_member_spend * adopted_discount_mean)%R in
  let merchandise_contribution := (gross_profit_before_discount - discount_cost)%R in
  let labor_cost := calculate_labor_cost_per_warehouse config 2026 in
  let fixed_opex := annual_fixed_opex_eur config in
  let total_contribution :=
    (membership_revenue + merchandise_contribution - labor_cost - fixed_opex)%R in
  let inflation := (Scenario.inflation_percent scenario_cfg / 100)%R in
  let break_even :=
    calculate_membership_break_even effective_fee (rmean discounts) inflation in
  ({| Replication.scenario := scenario_name;
      Replication.strategy := strategy_name;
      Replication.membership_fee_eur := fee;
      Replication.first_year_subsidy_eur := subsidy;
      Replication.effective_fee_eur := effective_fee;
      Replication.info_cues_used := info_cues;
      Replication.consumer_climate_index := Scenario.consumer_climate_index scenario_cfg;
      Replication.savings_rate_percent := Scenario.savings_rate_percent scenario_cfg;
      Replication.inflation_percent := Scenario.inflation_percent scenario_cfg;
      Replication.competitor_penalty_percent := (competitor_penalty * 100)%R;
      Replication.adoption_rate := adoption_rate;
      Replication.projected_member_households := projected_member_households;
      Replication.projected_member_spend_eur := projected_member_spend;
      Replication.membership_revenue_eur := membership_revenue;
      Replication.merchandise_contribution_eur := merchandise_contribution;
      Replication.total_contribution_eur := total_contribution;
      Replication.break_even_monthly_spend_eur := snd break_even;
      Replication.replication_id := None |},
   probs).

(** [row["replication_id"] = rep]. *)
Definition set_replication_id (rep : nat) (row : Replication.Row R) : Replication.Row R :=
  {| Replication.scenario := Replication.scenario row;
     Replication.strategy := Replication.strategy row;
     Replication.membership_fee_eur := Replication.membership_fee_eur row;
     Replication.first_year_subsidy_eur := Replication.first_year_subsidy_eur row;
     Replication.effective_fee_eur := Replication.effective_fee_eur row;
     Replication.info_cues_used := Replication.info_cues_used row;
     Replication.consumer_climate_index := Replication.consumer_climate_index row;
     Replication.savings_rate_percent := Replication.savings_rate_percent row;
     Replication.inflation_percent := Replication.inflation_percent row;
     Replication.competitor_penalty_percent := Replication.competitor_penalty_percent row;
     Replication.adoption_rate := Replication.adoption_rate row;
     Replication.projected_member_households := Replication.projected_member_households row;
     Replication.projected_member_spend_eur := Replication.projected_member_spend_eur row;
     Replication.membership_revenue_eur := Replication.membership_revenue_eur row;
     Replication.merchandise_contribution_eur := Replication.merchandise_contribution_eur row;
     Replication.total_contribution_eur := Replication.total_contribution_eur row;
     Replication.break_even_monthly_spend_eur := Replication.break_even_monthly_spend_eur row;
     Replication.replication_id := Some rep |}.

(** The two lists the engine appends to. *)
Record EngineState := {
  rows : list (Replication.Row R);
  adoption_samples : list (list (string * R))
}.

Section Engine.
Context `{NumpyRandom}.
Variables (config : SimConfig) (consumer : GermanConsumer).

(** The entropy the operating system would hand out at each call of
    [default_rng], indexed by scenario and replication. *)
Variable os_entropy : nat -> nat -> entropy.

Definition seed_of (scenario_idx rep : nat) : Z :=
  (random_seed config + Z.of_nat scenario_idx * 10000 + Z.of_nat rep)%Z.

(** Body of the loop over the strategies. *)
Definition strategy_step (scenario_name : string) (scenario_cfg : Scenario.Cfg)
  (rep : nat) (draws : list R * list R * list R)
  (acc : generator * EngineState) (strategy : string * Strategy.Cfg)
  : generator * EngineState :=
  let '(rng, st) := acc in
  let '(spends, discounts, noise) := draws in
  let '(competitor_shock, rng') :=
    normal1 0 (response_volatility_percent config / 100) rng in
  let '(row, probs) :=
    evaluate_strategy config consumer (fst strategy) (snd strategy)
      scenario_name scenario_cfg spends discounts noise competitor_shock in
  (rng',
   {| rows := rows st ++ [set_replication_id rep row];
      adoption_samples :=
        if String.eqb scenario_name "base_case" && Nat.eqb rep 0
        then adoption_samples st ++ [List.map (fun p => (fst strategy, p)) probs]
        else adoption_samples st |}).

(** Body of the loop over the replications. *)
Definition replication_step (scenario_idx : nat) (scenario_name : string)
  (scenario_cfg : Scenario.Cfg) (st : EngineState) (rep : nat) : EngineState :=
  let rng := default_rng (Some (seed_of scenario_idx rep)) (os_entropy scenario_idx rep) in
  let '(draws, rng1) := generate_draws config scenario_cfg rng in
  snd (fold_left (strategy_step scenario_name scenario_cfg rep draws)
         (strategy_options config) (rng1, st)).

(** Body of the loop over the enumerated scenarios. *)
Definition scenario_step (st : EngineState)
  (item : nat * (string * Scenario.Cfg)) : EngineState :=
  fold_left (replication_step (fst item) (fst (snd item)) (snd (snd item)))
    (seq 0 (n_replications config)) st.

(** [pd.concat] raises on an empty list of samples: [None]. *)
Definition run_replication_engine
  : option (list (Replication.Row R) * list (string * R)) :=
  let scenarios := macro_scenarios config in
  let st :=
    fold_left scenario_step (combine (seq 0 (length scenarios)) scenarios)
      {| rows := []; adoption_samples := [] |} in
  match adoption_samples st with
  | [] => None
  | _ :: _ => Some (rows st, concat (adoption_samples st))
  end.
End Engine.


(** ** Vocabulary of the optimizer statements *)

(** The plan rows whose rollout year is [y]. *)
Definition assigned_to (plan : list PlanRow) (y : Z) : list PlanRow :=
  List.filter (fun row => (rollout_year row =? y)%Z) plan.




(** What the enumeration guarantees of the cities of a bundle of [year]. *)
Definition combo_valid (ctx : OptContext) (year : nat) (c : list nat) : Prop :=
  List.NoDup c
  /\ (forall i, In i c -> (i < n_candidates ctx)%nat)
  /\ (c <> [] ->
      (Z.of_nat (length c) <= nth (year - 1) (max_new_per_year ctx) 0)%Z
      /\ (qsum (take_q (capex_arr ctx) c) <= nth (year - 1) (usable_budgets ctx) 0)%Q
      /\ (qmean (take_q (loss_arr ctx) c) <= nth (year - 1) (annual_loss_risk_cap ctx) 0)%Q).

Definition bundle_valid (ctx : OptContext) (year : nat) (b : Bundle) : Prop :=
  mask b = combo_mask (ids b)
  /\ state_mask b = combo_state_mask ctx (ids b)
  /\ combo_valid ctx year (ids b).

(** The union of the state masks of the bundles of the window years. *)
Definition window_mask (ctx : OptContext) (sched : list (list nat)) : Z :=
  fold_left (fun m c => Z.lor m (combo_state_mask ctx c))
    (firstn (first3_years ctx) sched) 0%Z.

(** Invariant of the yearly loop once [done] years are scheduled. *)
Definition loop_inv (ctx : OptContext) (done : nat) (st : OptState) : Prop :=
  length (schedule st) = done
  /\ (forall i : nat,
        Z.testbit (launched_mask st) (Z.of_nat i) = true
        <-> exists c, In c (schedule st) /\ In i c)
  /\ (forall k c, schedule st !! k = Some c -> combo_valid ctx (S k) c)
  /\ (forall k1 k2 c1 c2 i,
        schedule st !! k1 = Some c1 -> schedule st !! k2 = Some c2 ->
        In i c1 -> In i c2 -> k1 = k2)
  /\ state_mask_first3 st = window_mask ctx (schedule st).

(** The plan row of candidate [cid]: [df_index_arr[cid]]. *)
Definition target (ctx : OptContext) (cid : nat) : nat := nth cid (df_index_arr ctx) O.

(** The assignment the write-back makes to the rows of [combo] in [year]. *)
Definition assign_for (ctx : OptContext) (year : nat) (combo : list nat)
  (row : PlanRow) : PlanRow :=
  assign_row year
    (nth (year - 1) (annual_budgets ctx) 0%Q)
    (qsum (take_q (capex_arr ctx) combo))
    (nth (year - 1) (annual_loss_risk_cap ctx) 0%Q)
    (qmean (take_q (loss_arr ctx) combo))
    row.

(** ** Sample inputs *)

Definition mk_city (name st : string) (signal : BoardSignal) (objective loss capex : Q)
  : CityRecommendation :=
  {| city := name; state := st; board_signal := signal;
     portfolio_objective_eur := objective; risk_adjusted_city_score := objective;
     city_prob_loss := loss; capex_estimate_eur := capex |}.

(** Three candidates in two states, a three-year window that asks for
    three states, and one NO-GO city. *)
Definition two_state_cfg : PortfolioConfig :=
  {| annual_capex_budget_eur := [100; 100; 100]%Q;
     budget_reserve_ratio := 1 # 10;
     max_new_cities_per_year := [1; 2; 3]%Z;
     annual_loss_risk_cap_cfg := [1 # 2; 1 # 2; 1 # 2]%Q;
     min_distinct_states_first3_years := 3 |}.

Definition two_state_recs : list CityRecommendation :=
  [ mk_city "Munich" "Bavaria" GO 10 (1 # 10) 50;
    mk_city "Berlin" "Berlin" GO 8 (1 # 10) 40;
    mk_city "Nuremberg" "Bavaria" CONDITIONAL 5 (2 # 10) 30;
    mk_city "Bremen" "Bremen" NO_GO (-5) (9 # 10) 30 ].

(** Capex 50, 60 and 40 against a usable budget of 90 and at most two new
    cities. *)
Definition three_city_cfg : PortfolioConfig :=
  {| annual_capex_budget_eur := [100]%Q;
     budget_reserve_ratio := 1 # 10;
     max_new_cities_per_year := [2]%Z;
     annual_loss_risk_cap_cfg := [1 # 2]%Q;
     min_distinct_states_first3_years := 1 |}.

Definition three_city_recs : list CityRecommendation :=
  [ mk_city "Munich" "Bavaria" GO 10 (1 # 10) 50;
    mk_city "Berlin" "Berlin" GO 9 (1 # 10) 60;
    mk_city "Frankfurt" "Hesse" GO 8 (1 # 10) 40 ].

(** One planning year with room for one city, and two states required. *)
Definition one_year_cfg : PortfolioConfig :=
  {| annual_capex_budget_eur := [100]%Q;
     budget_reserve_ratio := 0;
     max_new_cities_per_year := [1]%Z;
     annual_loss_risk_cap_cfg := [1 # 2]%Q;
     min_distinct_states_first3_years := 2 |}.

Definition one_year_recs : list CityRecommendation :=
  [ mk_city "Munich" "Bavaria" GO 10 (1 # 10) 50;
    mk_city "Berlin" "Berlin" GO 8 (1 # 10) 40 ].

(** A filler row for positions outside a plan. *)
Definition no_row : PlanRow := initial_row (mk_city EmptyString EmptyString NO_GO 0 0 0).






(** ** Vocabulary of the statistics statements *)

(** A grouping of the rows [p]: every group holds, in table order, the rows
    of its key, no group is empty, no key occurs twice and every row has its
    group. *)
Definition grouped {A K : Type} (key_eqb : K -> K -> bool) (key : A -> K)
  (p : list A) (groups : list (K * list A)) : Prop :=
  (forall k rows, In (k, rows) groups ->
     rows = List.filter (fun y => key_eqb k (key y)) p /\ rows <> [])
  /\ List.NoDup (List.map fst groups)
  /\ (forall y, In y p -> In (key y) (List.map fst groups)).








(** ** Vocabulary of the simulation statements *)

(** The replication table in the words of the specification: for scenario
    index [i] and replication [r] one fresh generator seeded with
    [random_seed + i * 10000 + r] gives the draws, which all strategies of
    the pair share; each strategy then takes its competitor shock from the
    same generator, in the order of the strategies. *)
Section EngineSpec.
Context `{NumpyRandom}.
Variables (config : SimConfig) (consumer : GermanConsumer).
Variable os_entropy : nat -> nat -> entropy.

Fixpoint strategy_rows (scenario_name : string) (scenario_cfg : Scenario.Cfg)
  (rep : nat) (draws : list R * list R * list R) (rng : generator)
  (strategies : list (string * Strategy.Cfg)) : list (Replication.Row R) :=
  match strategies with
  | [] => []
  | strategy :: rest =>
      let '(competitor_shock, rng') :=
        normal1 0 (response_volatility_percent config / 100) rng in
      set_replication_id rep
        (fst (evaluate_strategy config consumer (fst strategy) (snd strategy)
                scenario_name scenario_cfg (fst (fst draws)) (snd (fst draws))
                (snd draws) competitor_shock))
      :: strategy_rows scenario_name scenario_cfg rep draws rng' rest
  end.

Fixpoint strategy_samples (scenario_name : string) (scenario_cfg : Scenario.Cfg)
  (rep : nat) (draws : list R * list R * list R) (rng : generator)
  (strategies : list (string * Strategy.Cfg)) : list (list (string * R)) :=
  match strategies with
  | [] => []
  | strategy :: rest =>
      let '(competitor_shock, rng') :=
        normal1 0 (response_volatility_percent config / 100) rng in
      (if String.eqb scenario_name "base_case" && Nat.eqb rep 0
       then [List.map (fun p => (fst strategy, p))
               (snd (evaluate_strategy config consumer (fst strategy) (snd strategy)
                       scenario_name scenario_cfg (fst (fst draws)) (snd (fst draws))
                       (snd draws) competitor_shock))]
       else [])
      ++ strategy_samples scenario_name scenario_cfg rep draws rng' rest
  end.

(** The draws of a pair and the generator they leave behind. *)
Definition pair_draws (scenario_idx : nat) (scenario_cfg : Scenario.Cfg) (rep : nat)
  : (list R * list R * list R) * generator :=
  generate_draws config scenario_cfg
    (default_rng
       (Some (random_seed config + Z.of_nat scenario_idx * 10000 + Z.of_nat rep)%Z)
       (os_entropy scenario_idx rep)).

Definition replication_rows (item : nat * (string * Scenario.Cfg)) (rep : nat)
  : list (Replication.Row R) :=
  strategy_rows (fst (snd item)) (snd (snd item)) rep
    (fst (pair_draws (fst item) (snd (snd item)) rep))
    (snd (pair_draws (fst item) (snd (snd item)) rep))
    (strategy_options config).

Definition replication_samples (item : nat * (string * Scenario.Cfg)) (rep : nat)
  : list (list (string * R)) :=
  strategy_samples (fst (snd item)) (snd (snd item)) rep
    (fst (pair_draws (fst item) (snd (snd item)) rep))
    (snd (pair_draws (fst item) (snd (snd item)) rep))
    (strategy_options config).

Definition enumerated_scenarios : list (nat * (string * Scenario.Cfg)) :=
  combine (seq 0 (length (macro_scenarios config))) (macro_scenarios config).

Definition spec_rows : list (Replication.Row R) :=
  flat_map
    (fun item => flat_map (replication_rows item) (seq 0 (n_replications config)))
    enumerated_scenarios.

Definition spec_samples : list (list (string * R)) :=
  flat_map
    (fun item => flat_map (replication_samples item) (seq 0 (n_replications config)))
    enumerated_scenarios.
End EngineSpec.

(** A stand-in for numpy's generator: a counter that starts at the seed and
    hands out constants. *)
Definition counter_random : NumpyRandom :=
  {| generator := Z;
     entropy := unit;
     default_rng := fun seed _ => default 0%Z seed;
     lognormal := fun _ _ n g => (repeat 1800%R n, (g + 1)%Z);
     triangular := fun _ _ _ n g => (repeat (1 / 10)%R n, (g + 1)%Z);
     normal := fun _ _ n g => (repeat 0%R n, (g + 1)%Z);
     normal1 := fun _ _ g => (0%R, (g + 1)%Z);
     default_rng_seeded := fun _ _ _ => eq_refl |}.

Definition entry_35 : Strategy.Cfg :=
  {| Strategy.membership_fee_eur := 35%R;
     Strategy.first_year_subsidy_eur := 0%R;
     Strategy.incremental_marketing_info_cues := 1%R |}.

Definition base_case : Scenario.Cfg :=
  {| Scenario.consumer_climate_index := (-24)%R;
     Scenario.savings_rate_percent := 11%R;
     Scenario.inflation_percent := 2%R;
     Scenario.discount_shift := 0%R |}.

Definition sample_sim_config : SimConfig :=
  {| employees_per_warehouse := 250%R;
     hours_per_employee_per_year := 1600%R;
     merchandise_gross_margin_percent := 13%R;
     annual_fixed_opex_eur := 4000000%R;
     min_wage_eur_per_hour := fun _ => 14%R;
     standard_german_ad_information_cues_min := 7%R;
     downside_response_uplift_percent := 2%R;
     top4_market_concentration_percent := 75%R;
     competitor_response_base_percent := 3%R;
     response_volatility_percent := 1%R;
     addressable_households := 120000%R;
     membership_fee_sensitivity := (1 / 100)%R;
     yearly_spend_distribution_mean_eur := 1800%R;
     yearly_spend_distribution_sigma := (1 / 2)%R;
     bulk_discount_distribution_min := (5 / 100)%R;
     bulk_discount_distribution_mode := (10 / 100)%R;
     bulk_discount_distribution_max := (15 / 100)%R;
     n_households_monte_carlo := 2;
     n_replications := 1;
     random_seed := 42;
     macro_scenarios := [("base_case", base_case)];
     strategy_options := [("entry_35", entry_35)] |}.

Definition sample_consumer : GermanConsumer :=
  {| indulgence := 40%R; uncertainty_avoidance := 65%R; long_term_orientation := 83%R;
     macro_consumer_climate_index := (-24)%R; macro_savings_rate_percent := 11%R |}.

(** * Further parts of the program *)

(** ** Vocabulary of the further optimizer statements *)

(** The order of the final [sort_values]: [a] may stand before [b]. *)
Definition plan_order (a b : PlanRow) : Prop :=
  (rollout_sort a < rollout_sort b)%Z
  \/ (rollout_sort a = rollout_sort b
      /\ ((portfolio_objective_eur (rec b) < portfolio_objective_eur (rec a))%Q
          \/ ((portfolio_objective_eur (rec a) == portfolio_objective_eur (rec b))%Q
              /\ (risk_adjusted_city_score (rec b) <= risk_adjusted_city_score (rec a))%Q))).

(** ** Valuation model *)

(** [np.clip(x, lo, hi)]: the minimum of [hi] and the maximum of [x] and [lo]. *)
Definition qclip (x lo hi : Q) : Q := py_min (py_max x lo) hi.

(** [l[:n]] for a Python integer [n]: a negative [n] counts from the end. *)
Definition py_slice_to {A : Type} (l : list A) (n : Z) : list A :=
  if (n <? 0)%Z then firstn (length l - Z.to_nat (- n)) l else firstn (Z.to_nat n) l.

(** [config["financial_assumptions"]]. *)
Module Financial.
Record Cfg := {
  wacc_percent : Q;
  terminal_growth_percent : Q;
  planning_horizon_years : Z;
  capex_per_new_warehouse_eur : Q;
  maintenance_capex_percent_of_contribution : Q;
  warehouses_cumulative_by_year : list Z
}.
End Financial.

Module Cashflow.
Record Row := {
  strategy : string;
  year : nat;
  cumulative_warehouses : Z;
  contribution_per_warehouse_eur : Q;
  gross_contribution_eur : Q;
  maintenance_capex_eur : Q;
  growth_capex_eur : Q;
  free_cash_flow_eur : Q;
  discount_factor : Q;
  discounted_fcf_eur : Q
}.
End Cashflow.

Module Valuation.
Record Row := {
  strategy : string;
  weighted_mean_contribution_eur : Q;
  strategy_growth_assumption : Q;
  npv_5y_eur : Q;
  terminal_value_discounted_eur : Q;
  payback_year : Z
}.
End Valuation.

(** The variables the loop over the years updates. *)
Module YearLoop.
Record State := {
  prev_wh : Z;
  undiscounted_cum : Q;
  payback_year : option nat;
  discounted_fcfs : list Q;
  cashflow_rows : list Cashflow.Row
}.
End YearLoop.

(** [rollout = financial["warehouses_cumulative_by_year"][:horizon]]. *)
Definition rollout_of (fin : Financial.Cfg) : list Z :=
  py_slice_to (Financial.warehouses_cumulative_by_year fin)
    (Financial.planning_horizon_years fin).

(** The cash flow row of one year.  [None] is the [IndexError] of
    [rollout[-1]] on an empty schedule or the [ZeroDivisionError] of the
    discount factor. *)
Definition year_cashflow (fin : Financial.Cfg) (strategy : string)
  (weighted_contrib strategy_growth : Q) (prev_wh : Z) (year : nat)
  : option Cashflow.Row :=
  let wacc := (Financial.wacc_percent fin / 100)%Q in
  let maint_pct := (Financial.maintenance_capex_percent_of_contribution fin / 100)%Q in
  let rollout := rollout_of fin in
  cumulative_wh ← match rollout !! (year - 1)%nat with
                   | Some w => Some w
                   | None => last rollout
                   end;
  let new_wh := (cumulative_wh - prev_wh)%Z in
  let contrib_per_wh :=
    (weighted_contrib * Qpower (1 + strategy_growth) (Z.of_nat (year - 1)))%Q in
  let gross_contrib := (contrib_per_wh * inject_Z cumulative_wh)%Q in
  let maintenance_capex := (py_max 0 gross_contrib * maint_pct)%Q in
  let growth_capex := (inject_Z new_wh * Financial.capex_per_new_warehouse_eur fin)%Q in
  let fcf := (gross_contrib - maintenance_capex - growth_capex)%Q in
  let denominator := Qpower (1 + wacc) (Z.of_nat year) in
  if Qeq_bool denominator 0 then None
  else
    let discount_factor := (1 / denominator)%Q in
    Some {| Cashflow.strategy := strategy;
            Cashflow.year := year;
            Cashflow.cumulative_warehouses := cumulative_wh;
            Cashflow.contribution_per_warehouse_eur := contrib_per_wh;
            Cashflow.gross_contribution_eur := gross_contrib;
            Cashflow.maintenance_capex_eur := maintenance_capex;
            Cashflow.growth_capex_eur := growth_capex;
            Cashflow.free_cash_flow_eur := fcf;
            Cashflow.discount_factor := discount_factor;
            Cashflow.discounted_fcf_eur := (fcf * discount_factor)%Q |}.

(** One pass of [for year in range(1, horizon + 1)]; the rows appended to
    the shared [cashflow_rows] are kept in the state. *)
Definition year_step (fin : Financial.Cfg) (strategy : string)
  (weighted_contrib strategy_growth : Q)
  (acc : option YearLoop.State) (year : nat) : option YearLoop.State :=
  st ← acc;
  row ← year_cashflow fin strategy weighted_contrib strategy_growth
          (YearLoop.prev_wh st) year;
  let cum := (YearLoop.undiscounted_cum st + Cashflow.free_cash_flow_eur row)%Q in
  Some {| YearLoop.prev_wh := Cashflow.cumulative_warehouses row;
          YearLoop.undiscounted_cum := cum;
          YearLoop.payback_year :=
            match YearLoop.payback_year st with
            | Some y => Some y
            | None => if Qle_bool 0 cum then Some year else None
            end;
          YearLoop.discounted_fcfs :=
            YearLoop.discounted_fcfs st ++ [Cashflow.discounted_fcf_eur row];
          YearLoop.cashflow_rows := YearLoop.cashflow_rows st ++ [row] |}.

Definition year_loop_init : YearLoop.State :=
  {| YearLoop.prev_wh := 0; YearLoop.undiscounted_cum := 0;
     YearLoop.payback_year := None; YearLoop.discounted_fcfs := [];
     YearLoop.cashflow_rows := [] |}.

(** [for year in range(1, horizon + 1)] for one strategy. *)
Definition run_year_loop (fin : Financial.Cfg) (strategy : string)
  (weighted_contrib strategy_growth : Q) : option YearLoop.State :=
  fold_left (year_step fin strategy weighted_contrib strategy_growth)
    (seq 1 (Z.to_nat (Financial.planning_horizon_years fin)))
    (Some year_loop_init).

Definition strategy_growth_of (real_retail_growth_percent : Q) (strat : Decision.Row) : Q :=
  qclip (real_retail_growth_percent / 100
         + (Decision.base_case_adoption_rate strat - (20 # 100)) * (10 # 100))
    (- (2 # 100)) (9 # 100).

(** One pass of [for _, strat in decision_df.iterrows()], from the two row
    lists so far.  [None] is an exception: of a year, the [IndexError] of
    [cashflow_rows[-1]], or the [ZeroDivisionError] of the terminal
    discounting. *)
Definition valuation_step (fin : Financial.Cfg) (real_retail_growth_percent : Q)
  (acc : option (list Valuation.Row * list Cashflow.Row)) (strat : Decision.Row)
  : option (list Valuation.Row * list Cashflow.Row) :=
  tables ← acc;
  let wacc := (Financial.wacc_percent fin / 100)%Q in
  let terminal_growth := (Financial.terminal_growth_percent fin / 100)%Q in
  let horizon := Financial.planning_horizon_years fin in
  let weighted_contrib := Decision.weighted_mean_contribution_eur strat in
  let strategy_growth := strategy_growth_of real_retail_growth_percent strat in
  st ← run_year_loop fin (Decision.strategy strat) weighted_contrib strategy_growth;
  let cashflow_rows := snd tables ++ YearLoop.cashflow_rows st in
  final ← last cashflow_rows;
  let year_n_fcf := Cashflow.free_cash_flow_eur final in
  let terminal_value :=
    if Qgtb year_n_fcf 0 && Qgtb wacc terminal_growth
    then (year_n_fcf * (1 + terminal_growth) / (wacc - terminal_growth))%Q
    else 0%Q in
  let denominator := Qpower (1 + wacc) horizon in
  if Qeq_bool denominator 0 then None
  else
    let terminal_discounted := (terminal_value / denominator)%Q in
    Some (fst tables ++
            [{| Valuation.strategy := Decision.strategy strat;
                Valuation.weighted_mean_contribution_eur := weighted_contrib;
                Valuation.strategy_growth_assumption := strategy_growth;
                Valuation.npv_5y_eur :=
                  (qsum (YearLoop.discounted_fcfs st) + terminal_discounted)%Q;
                Valuation.terminal_value_discounted_eur := terminal_discounted;
                Valuation.payback_year :=
                  match YearLoop.payback_year st with
                  | Some y => Z.of_nat y
                  | None => (-1)%Z
                  end |}],
          cashflow_rows).

(** [build_valuation_model]: [valuation_df] and [cashflow_df].  The summary
    table is not read.  Without a strategy the final [sort_values] raises a
    [KeyError]; rows of equal NPV are kept in loop order. *)
Definition build_valuation_model (decision_df : list Decision.Row)
  (fin : Financial.Cfg) (real_retail_growth_percent : Q)
  : option (list Valuation.Row * list Cashflow.Row) :=
  tables ← fold_left (valuation_step fin real_retail_growth_percent) decision_df
             (Some ([], []));
  match fst tables with
  | [] => None
  | _ :: _ =>
      Some (stable_sort
              (fun y x => Qgtb (Valuation.npv_5y_eur y) (Valuation.npv_5y_eur x))
              (fst tables),
            snd tables)
  end.

(** ** Vocabulary of the valuation statements *)

(** The cash flow rows of one strategy. *)
Definition own_rows (name : string) (cashflow_df : list Cashflow.Row) : list Cashflow.Row :=
  List.filter (fun r => String.eqb (Cashflow.strategy r) name) cashflow_df.

(** The free cash flow accumulated over the first [y] rows. *)
Definition cum_fcf (rows : list Cashflow.Row) (y : nat) : Q :=
  qsum (List.map Cashflow.free_cash_flow_eur (firstn y rows)).

(** What holds of the state of the loop over the years once [n] years are
    done: one row per year, each computed from the warehouses of the year
    before, the running sums, and the payback year as the first year whose
    accumulated free cash flow is not negative. *)
Definition year_loop_inv (fin : Financial.Cfg) (name : string) (wc g : Q)
  (n : nat) (st : YearLoop.State) : Prop :=
  length (YearLoop.cashflow_rows st) = n
  /\ (forall i row, YearLoop.cashflow_rows st !! i = Some row ->
        year_cashflow fin name wc g
          (match i with
           | O => 0%Z
           | S j => default 0%Z
                      (Cashflow.cumulative_warehouses <$> YearLoop.cashflow_rows st !! j)
           end) (S i) = Some row)
  /\ YearLoop.prev_wh st
     = default 0%Z (Cashflow.cumulative_warehouses <$> last (YearLoop.cashflow_rows st))
  /\ (YearLoop.undiscounted_cum st == cum_fcf (YearLoop.cashflow_rows st) n)%Q
  /\ YearLoop.discounted_fcfs st
     = List.map Cashflow.discounted_fcf_eur (YearLoop.cashflow_rows st)
  /\ match YearLoop.payback_year st with
     | Some y =>
         (1 <= y <= n)%nat
         /\ (0 <= cum_fcf (YearLoop.cashflow_rows st) y)%Q
         /\ forall y', (1 <= y' < y)%nat -> (cum_fcf (YearLoop.cashflow_rows st) y' < 0)%Q
     | None =>
         forall y', (1 <= y' <= n)%nat -> (cum_fcf (YearLoop.cashflow_rows st) y' < 0)%Q
     end.

(** The terminal value of a final-year free cash flow, discounted. *)
Definition terminal_discounted_of (fin : Financial.Cfg) (year_n_fcf : Q) : Q :=
  let wacc := (Financial.wacc_percent fin / 100)%Q in
  let terminal_growth := (Financial.terminal_growth_percent fin / 100)%Q in
  ((if Qgtb year_n_fcf 0 && Qgtb wacc terminal_growth
    then year_n_fcf * (1 + terminal_growth) / (wacc - terminal_growth)
    else 0)
   / Qpower (1 + wacc) (Financial.planning_horizon_years fin))%Q.

(** The valuation row [v] is the one the loop makes of the decision row [d],
    whose year loop ends in [st]. *)
Definition strategy_result (fin : Financial.Cfg) (growth_percent : Q)
  (d : Decision.Row) (st : YearLoop.State) (v : Valuation.Row) : Prop :=
  run_year_loop fin (Decision.strategy d) (Decision.weighted_mean_contribution_eur d)
    (strategy_growth_of growth_percent d) = Some st
  /\ Valuation.strategy v = Decision.strategy d
  /\ Valuation.weighted_mean_contribution_eur v = Decision.weighted_mean_contribution_eur d
  /\ Valuation.strategy_growth_assumption v = strategy_growth_of growth_percent d
  /\ Valuation.payback_year v
     = match YearLoop.payback_year st with
       | Some y => Z.of_nat y
       | None => (-1)%Z
       end
  /\ Valuation.npv_5y_eur v
     = (qsum (YearLoop.discounted_fcfs st) + Valuation.terminal_value_discounted_eur v)%Q
  /\ exists final,
       last (YearLoop.cashflow_rows st) = Some final
       /\ Valuation.terminal_value_discounted_eur v
          = terminal_discounted_of fin (Cashflow.free_cash_flow_eur final).

(** The cumulative warehouses of year [y] (none before year 1): the
    schedule's entry, and its last entry once the schedule has run out. *)
Definition warehouses_in_year (fin : Financial.Cfg) (y : nat) : Z :=
  match y with
  | O => 0%Z
  | S i => nth (Nat.min i (length (rollout_of fin) - 1)) (rollout_of fin) 0%Z
  end.

Definition mk_decision (name : string) (contribution adoption : Q) : Decision.Row :=
  {| Decision.strategy := name;
     Decision.weighted_mean_contribution_eur := contribution;
     Decision.mean_std_contribution_eur := 0;
     Decision.weighted_prob_loss := 0;
     Decision.weighted_cvar5_contribution_eur := 0;
     Decision.weighted_prob_meet_hurdle := 0;
     Decision.base_case_contribution_eur := contribution;
     Decision.base_case_adoption_rate := adoption;
     Decision.risk_adjusted_score := contribution;
     Decision.rank := 1 |}.

(** Three years planned over a schedule of two, one warehouse then two. *)
Definition sample_fin : Financial.Cfg :=
  {| Financial.wacc_percent := 8;
     Financial.terminal_growth_percent := 2;
     Financial.planning_horizon_years := 3;
     Financial.capex_per_new_warehouse_eur := 100;
     Financial.maintenance_capex_percent_of_contribution := 10;
     Financial.warehouses_cumulative_by_year := [1; 2]%Z |}.

Definition sample_decisions : list Decision.Row :=
  [ mk_decision "fee_65" 80 (30 # 100); mk_decision "fee_35" (-10) (20 # 100) ].

(** * Facts about the helpers *)

(** Linear arithmetic over the rationals and over the reals. *)
Ltac qlra := Lqa.lra.
Ltac rlra := Lra.lra.

Section SortFacts.
Context {A : Type} (before : A -> A -> bool).

Lemma insert_sorted_perm (x : A) (l : list A) :
  Permutation (insert_sorted before x l) (x :: l).
Proof.
  induction l as [|y t IH]; simpl; [reflexivity|].
  destruct (before y x); [|reflexivity].
  rewrite IH. apply perm_swap.
Qed.

Lemma stable_sort_perm (l : list A) : Permutation (stable_sort before l) l.
Proof.
  induction l as [|x t IH]; simpl; [constructor|].
  rewrite insert_sorted_perm. now constructor.
Qed.

Lemma stable_sort_In (x : A) (l : list A) : In x (stable_sort before l) <-> In x l.
Proof.
  split; apply Permutation_in; [|symmetry]; apply stable_sort_perm.
Qed.

End SortFacts.

Lemma Qgtb_false (a b : Q) : Qgtb a b = false -> (a <= b)%Q.
Proof.
  unfold Qgtb. intros E. apply negb_false_iff in E. now apply Qle_bool_iff.
Qed.

Lemma Qgtb_true (a b : Q) : Qgtb a b = true -> (b < a)%Q.
Proof.
  unfold Qgtb. intros E. apply negb_true_iff in E.
  apply Qnot_le_lt. intros L. apply Qle_bool_iff in L. congruence.
Qed.



Lemma qsum_app (l1 l2 : list Q) : (qsum (l1 ++ l2) == qsum l1 + qsum l2)%Q.
Proof.
  induction l1 as [|x t IH]; simpl; [ring|]. rewrite IH. ring.
Qed.

Lemma qsum_perm (l1 l2 : list Q) : Permutation l1 l2 -> (qsum l1 == qsum l2)%Q.
Proof.
  induction 1 as [|x l l' _ IH|x y l|l l' l'' _ IH1 _ IH2]; simpl.
  - reflexivity.
  - now rewrite IH.
  - ring.
  - now rewrite IH1.
Qed.

Lemma qmean_perm (l1 l2 : list Q) : Permutation l1 l2 -> (qmean l1 == qmean l2)%Q.
Proof.
  intros P. unfold qmean.
  rewrite (qsum_perm _ _ P), (Permutation_length P). reflexivity.
Qed.

(** ** Combinations *)

Lemma combinations_length {A : Type} (l : list A) :
  forall k c, In c (combinations l k) -> length c = k.
Proof.
  induction l as [|x t IH]; intros [|k] c Hc; simpl in Hc.
  - destruct Hc as [<-|[]]; reflexivity.
  - destruct Hc.
  - destruct Hc as [<-|[]]; reflexivity.
  - apply in_app_or in Hc. destruct Hc as [Hc|Hc].
    + apply in_map_iff in Hc. destruct Hc as (c' & <- & Hc').
      simpl. f_equal. now apply IH.
    + now apply IH.
Qed.

Lemma combinations_incl {A : Type} (l : list A) :
  forall k c x, In c (combinations l k) -> In x c -> In x l.
Proof.
  induction l as [|y t IH]; intros [|k] c x Hc Hx; simpl in Hc.
  - destruct Hc as [<-|[]]. destruct Hx.
  - destruct Hc.
  - destruct Hc as [<-|[]]. destruct Hx.
  - apply in_app_or in Hc. destruct Hc as [Hc|Hc].
    + apply in_map_iff in Hc. destruct Hc as (c' & <- & Hc').
      destruct Hx as [<-|Hx]; [now left|right; eauto].
    + right; eauto.
Qed.

Lemma combinations_NoDup {A : Type} (l : list A) :
  List.NoDup l -> forall k c, In c (combinations l k) -> List.NoDup c.
Proof.
  induction 1 as [|y t Hy Ht IH]; intros [|k] c Hc; simpl in Hc.
  - destruct Hc as [<-|[]]. constructor.
  - destruct Hc.
  - destruct Hc as [<-|[]]. constructor.
  - apply in_app_or in Hc. destruct Hc as [Hc|Hc].
    + apply in_map_iff in Hc. destruct Hc as (c' & <- & Hc').
      constructor; [|eauto].
      intros Hin. apply Hy. eapply combinations_incl; eauto.
    + eauto.
Qed.

(** ** Bit masks *)

Lemma testbit_one_hot (i j : nat) :
  Z.testbit (Z.shiftl 1 (Z.of_nat i)) (Z.of_nat j) = Nat.eqb i j.
Proof.
  rewrite Z.shiftl_1_l, Z.pow2_bits_eqb by lia.
  destruct (Nat.eqb_spec i j) as [->|Hne]; [apply Z.eqb_refl|].
  apply Z.eqb_neq. lia.
Qed.

Lemma combo_mask_acc_testbit (combo : list nat) :
  forall (m : Z) (j : nat),
    Z.testbit
      (fold_left (fun m cid => Z.lor m (Z.shiftl 1 (Z.of_nat cid))) combo m)
      (Z.of_nat j) = true
    <-> Z.testbit m (Z.of_nat j) = true \/ In j combo.
Proof.
  induction combo as [|c t IH]; intros m j; simpl.
  - tauto.
  - rewrite IH, Z.lor_spec, testbit_one_hot, orb_true_iff, Nat.eqb_eq. tauto.
Qed.

Lemma combo_mask_testbit (combo : list nat) (j : nat) :
  Z.testbit (combo_mask combo) (Z.of_nat j) = true <-> In j combo.
Proof.
  unfold combo_mask. rewrite combo_mask_acc_testbit.
  rewrite Z.testbit_0_l. intuition congruence.
Qed.

Lemma land_zero_disjoint (a b : Z) (j : Z) :
  Z.land a b = 0%Z -> Z.testbit a j = true -> Z.testbit b j = false.
Proof.
  intros E Ha.
  assert (Hj : Z.testbit (Z.land a b) j = false) by (rewrite E; apply Z.testbit_0_l).
  rewrite Z.land_spec, Ha in Hj. exact Hj.
Qed.

(** ** Bundles of a year *)

Lemma make_bundle_valid (ctx : OptContext) (year : nat) (combo : list nat) (b : Bundle) :
  List.NoDup combo ->
  (forall i, In i combo -> (i < n_candidates ctx)%nat) ->
  (Z.of_nat (length combo) <= nth (year - 1) (max_new_per_year ctx) 0)%Z ->
  make_bundle ctx (nth (year - 1) (usable_budgets ctx) 0%Q)
    (nth (year - 1) (annual_loss_risk_cap ctx) 0%Q) combo = Some b ->
  bundle_valid ctx year b.
Proof.
  intros Hnd Hlt Hlen. unfold make_bundle.
  destruct (Qgtb _ _) eqn:E1; [discriminate|].
  destruct (Qgtb (qmean _) _) eqn:E2; [discriminate|].
  intros [= <-]. unfold bundle_valid, combo_valid; simpl.
  repeat split; auto using Qgtb_false.
Qed.

Lemma empty_bundle_valid (ctx : OptContext) (year : nat) :
  bundle_valid ctx year empty_bundle.
Proof.
  unfold bundle_valid, combo_valid; simpl.
  repeat split; first [easy | constructor].
Qed.

Lemma yearly_bundles_valid (ctx : OptContext) (year : nat) (b : Bundle) :
  In b (yearly_bundles ctx year) -> bundle_valid ctx year b.
Proof.
  unfold yearly_bundles. rewrite stable_sort_In. intros [<-|Hb].
  - apply empty_bundle_valid.
  - apply in_flat_map in Hb. destruct Hb as (k & Hk & Hb).
    apply in_seq in Hk. unfold bundles_of_size in Hb.
    apply list_elem_of_In, list_elem_of_omap in Hb.
    destruct Hb as (combo & Hc & Hmk). apply list_elem_of_In in Hc.
    eapply make_bundle_valid; eauto.
    + eapply combinations_NoDup; eauto. apply seq_NoDup.
    + intros i Hi. eapply combinations_incl in Hi; eauto.
      apply in_seq in Hi. lia.
    + rewrite (combinations_length _ _ _ Hc). lia.
Qed.

Lemma empty_bundle_listed (ctx : OptContext) (year : nat) :
  In empty_bundle (yearly_bundles ctx year).
Proof. unfold yearly_bundles. apply stable_sort_In. now left. Qed.

(** ** The scan of one year *)

Lemma scan_keeps_some (ctx : OptContext) (year : nat) (st : OptState) (l : list Bundle) :
  forall best, is_Some best -> is_Some (fold_left (scan_step ctx year st) l best).
Proof.
  induction l as [|b t IH]; intros best Hbest; simpl; [exact Hbest|].
  apply IH. unfold scan_step.
  destruct (survives ctx year st b); [|exact Hbest].
  destruct best as [[b0 s0]|]; [|eauto].
  destruct (Qgtb _ _); eauto.
Qed.

Lemma scan_finds_survivor (ctx : OptContext) (year : nat) (st : OptState)
  (l : list Bundle) (b : Bundle) :
  In b l -> survives ctx year st b = true ->
  forall best, is_Some (fold_left (scan_step ctx year st) l best).
Proof.
  induction l as [|x t IH]; intros Hin Hs best; [destruct Hin|].
  simpl. destruct Hin as [->|Hin]; [|now apply IH].
  apply scan_keeps_some. unfold scan_step. rewrite Hs.
  destruct best as [[b0 s0]|]; [|eauto].
  destruct (Qgtb _ _); eauto.
Qed.

Lemma scan_result (ctx : OptContext) (year : nat) (st : OptState) (l : list Bundle) :
  forall best b s,
    fold_left (scan_step ctx year st) l best = Some (b, s) ->
    best = Some (b, s) \/ (In b l /\ survives ctx year st b = true).
Proof.
  induction l as [|x t IH]; intros best b s Hf; simpl in Hf; [now left|].
  apply IH in Hf. destruct Hf as [Hf|[Hin Hs]]; [|right; split; [now right|exact Hs]].
  unfold scan_step in Hf. destruct (survives ctx year st x) eqn:Hx; [|now left].
  destruct best as [[b0 s0]|].
  - destruct (Qgtb _ _); [|now left].
    injection Hf as <- <-. right. split; [now left|exact Hx].
  - injection Hf as <- <-. right. split; [now left|exact Hx].
Qed.

Lemma select_best_bundle_sound (ctx : OptContext) (year : nat) (st : OptState) (b : Bundle) :
  select_best_bundle ctx year st = Some b ->
  In b (yearly_bundles ctx year) /\ survives ctx year st b = true.
Proof.
  unfold select_best_bundle. intros Hsel.
  destruct (fold_left _ _ None) as [[b0 s0]|] eqn:Hf; [|discriminate].
  simpl in Hsel. injection Hsel as ->.
  apply scan_result in Hf. destruct Hf as [Hf|Hf]; [discriminate|exact Hf].
Qed.

Lemma empty_bundle_survives_late (ctx : OptContext) (year : nat) (st : OptState) :
  (first3_years ctx < year)%nat -> survives ctx year st empty_bundle = true.
Proof.
  intros Hlate. unfold survives. simpl.
  destruct (Nat.leb_spec year (first3_years ctx)); [lia|reflexivity].
Qed.

Lemma select_best_bundle_late (ctx : OptContext) (year : nat) (st : OptState) :
  (first3_years ctx < year)%nat -> is_Some (select_best_bundle ctx year st).
Proof.
  intros Hlate. unfold select_best_bundle.
  destruct (scan_finds_survivor ctx year st (yearly_bundles ctx year) empty_bundle
              (empty_bundle_listed ctx year)
              (empty_bundle_survives_late ctx year st Hlate) None) as [best Hbest].
  rewrite Hbest. eauto.
Qed.

Lemma run_years_break (ctx : OptContext) (years : list nat) :
  forall st st' y,
    run_years ctx years st = (st', Some y) ->
    In y years /\ (y <= first3_years ctx)%nat.
Proof.
  induction years as [|year rest IH]; intros st st' y Hrun; simpl in Hrun.
  - discriminate.
  - destruct (select_best_bundle ctx year st) as [b|] eqn:Hsel.
    + apply IH in Hrun. destruct Hrun. split; [now right|assumption].
    + injection Hrun as <- <-. split; [now left|].
      destruct (Nat.le_gt_cases year (first3_years ctx)) as [Hle|Hgt]; [exact Hle|].
      destruct (select_best_bundle_late ctx year st Hgt) as [b Hb]. congruence.
Qed.

(** ** Invariant of the yearly loop *)

Lemma survives_no_overlap (ctx : OptContext) (year : nat) (st : OptState) (b : Bundle) :
  survives ctx year st b = true -> Z.land (mask b) (launched_mask st) = 0%Z.
Proof.
  unfold survives.
  destruct (Z.eqb_spec (Z.land (mask b) (launched_mask st)) 0) as [E|E]; simpl;
    [intros _; exact E|discriminate].
Qed.

Lemma window_mask_snoc_in (ctx : OptContext) (sched : list (list nat)) (c : list nat) :
  (length sched < first3_years ctx)%nat ->
  window_mask ctx (sched ++ [c])
  = Z.lor (window_mask ctx sched) (combo_state_mask ctx c).
Proof.
  intros Hlt. unfold window_mask.
  rewrite firstn_app, (take_ge sched) by lia.
  destruct (first3_years ctx - length sched)%nat as [|k] eqn:E; [lia|].
  simpl firstn. rewrite firstn_nil, fold_left_app. reflexivity.
Qed.

Lemma window_mask_snoc_out (ctx : OptContext) (sched : list (list nat)) (c : list nat) :
  (first3_years ctx <= length sched)%nat ->
  window_mask ctx (sched ++ [c]) = window_mask ctx sched.
Proof.
  intros Hge. unfold window_mask. now rewrite take_app_le.
Qed.

Lemma initial_state_inv (ctx : OptContext) : loop_inv ctx 0 initial_state.
Proof.
  unfold loop_inv, initial_state, window_mask; simpl.
  split; [|split; [|split; [|split]]].
  - reflexivity.
  - intros i. rewrite Z.testbit_0_l. split; [discriminate|intros (c & [] & _)].
  - intros k c Hk. rewrite lookup_nil in Hk. discriminate.
  - intros k1 k2 c1 c2 i Hk. rewrite lookup_nil in Hk. discriminate.
  - now rewrite firstn_nil.
Qed.

Lemma commit_inv (ctx : OptContext) (done : nat) (st : OptState) (b : Bundle) :
  loop_inv ctx done st ->
  In b (yearly_bundles ctx (S done)) ->
  survives ctx (S done) st b = true ->
  loop_inv ctx (S done) (commit ctx (S done) st b).
Proof.
  intros (Hlen & Hbits & Hvalid & Hdisj & Hmask) Hin Hs.
  destruct (yearly_bundles_valid ctx (S done) b Hin) as (Hm & Hsm & Hcv).
  pose proof (survives_no_overlap ctx (S done) st b Hs) as Hland.
  assert (Hfresh : forall i c, In i (ids b) -> In c (schedule st) -> ~ In i c).
  { intros i c Hi Hc Hic.
    assert (Hb : Z.testbit (mask b) (Z.of_nat i) = true)
      by (rewrite Hm; now apply combo_mask_testbit).
    pose proof (land_zero_disjoint _ _ _ Hland Hb) as Hl.
    assert (Ht : Z.testbit (launched_mask st) (Z.of_nat i) = true)
      by (apply Hbits; eauto).
    congruence. }
  unfold loop_inv, commit; cbn [launched_mask state_mask_first3 schedule].
  split; [|split; [|split; [|split]]].
  - rewrite length_app; simpl. lia.
  - intros i. rewrite Z.lor_spec, orb_true_iff, Hm, combo_mask_testbit, Hbits. split.
    + intros [(c & Hc & Hi)|Hi].
      * exists c. split; [apply in_or_app; now left|exact Hi].
      * exists (ids b). split; [apply in_or_app; right; now left|exact Hi].
    + intros (c & Hc & Hi).
      apply in_app_or in Hc. destruct Hc as [Hc|[<-|[]]]; [left; eauto|now right].
  - intros k c Hk. apply lookup_app_Some in Hk.
    destruct Hk as [Hk|[Hge Hk]]; [now apply Hvalid|].
    apply list_lookup_singleton_Some in Hk. destruct Hk as [Hk <-].
    replace k with done by lia. exact Hcv.
  - intros k1 k2 c1 c2 i Hk1 Hk2 Hi1 Hi2.
    apply lookup_app_Some in Hk1. apply lookup_app_Some in Hk2.
    destruct Hk1 as [Hk1|[Hge1 Hk1]], Hk2 as [Hk2|[Hge2 Hk2]].
    + eapply Hdisj; eauto.
    + apply list_lookup_singleton_Some in Hk2. destruct Hk2 as [_ <-].
      exfalso. apply (Hfresh i c1 Hi2); [|exact Hi1].
      apply list_elem_of_In. eapply list_elem_of_lookup_2; exact Hk1.
    + apply list_lookup_singleton_Some in Hk1. destruct Hk1 as [_ <-].
      exfalso. apply (Hfresh i c2 Hi1); [|exact Hi2].
      apply list_elem_of_In. eapply list_elem_of_lookup_2; exact Hk2.
    + apply list_lookup_singleton_Some in Hk1, Hk2. lia.
  - destruct (Nat.leb_spec (S done) (first3_years ctx)).
    + rewrite window_mask_snoc_in by lia. now rewrite Hmask, Hsm.
    + rewrite window_mask_snoc_out by lia. exact Hmask.
Qed.

Lemma run_years_inv (ctx : OptContext) (k : nat) :
  forall done st st',
    loop_inv ctx done st ->
    run_years ctx (seq (S done) k) st = (st', None) ->
    loop_inv ctx (done + k) st'.
Proof.
  induction k as [|k IH]; intros done st st' Hinv Hrun; simpl in Hrun.
  - injection Hrun as <-. now rewrite Nat.add_0_r.
  - destruct (select_best_bundle ctx (S done) st) as [b|] eqn:Hsel; [|discriminate].
    apply select_best_bundle_sound in Hsel. destruct Hsel as [Hin Hs].
    replace (done + S k)%nat with (S done + k)%nat by lia.
    eapply IH; [|exact Hrun]. now apply commit_inv.
Qed.

Lemma run_optimizer_inv (ctx : OptContext) (st : OptState) :
  run_optimizer ctx = (st, None) -> loop_inv ctx (planning_years ctx) st.
Proof.
  intros Hrun. apply (run_years_inv ctx (planning_years ctx) 0 initial_state st).
  - apply initial_state_inv.
  - exact Hrun.
Qed.

(** ** The write-back *)

Lemma write_combo_unfold (ctx : OptContext) (year : nat) (combo : list nat)
  (plan : list PlanRow) :
  write_combo ctx year combo plan
  = fold_left (fun p cid => alter (assign_for ctx year combo) (target ctx cid) p) combo plan.
Proof. reflexivity. Qed.

Lemma assign_for_overwrite (ctx : OptContext) (y y' : nat) (c c' : list nat) (row : PlanRow) :
  assign_for ctx y c (assign_for ctx y' c' row) = assign_for ctx y c row.
Proof. reflexivity. Qed.

Section AlterFold.
Context (f : PlanRow -> PlanRow) (tgt : nat -> nat).
Hypothesis f_idem : forall row, f (f row) = f row.

Let step := fun (p : list PlanRow) (cid : nat) => alter f (tgt cid) p.

Lemma alter_fold_length (l : list nat) :
  forall plan, length (fold_left step l plan) = length plan.
Proof.
  induction l as [|cid t IH]; intros plan; simpl; [reflexivity|].
  rewrite IH. apply length_alter.
Qed.

Lemma alter_fold_ne (l : list nat) (i : nat) :
  (forall cid, In cid l -> tgt cid <> i) ->
  forall plan, fold_left step l plan !! i = plan !! i.
Proof.
  induction l as [|cid t IH]; intros Hne plan; simpl; [reflexivity|].
  rewrite IH by (intros; apply Hne; now right).
  apply list_lookup_alter_ne, Hne. now left.
Qed.

Lemma hit_or_miss (l : list nat) (i : nat) :
  (exists cid, In cid l /\ tgt cid = i) \/ (forall cid, In cid l -> tgt cid <> i).
Proof.
  induction l as [|cid t IH]; [right; intros ? []|].
  destruct (Nat.eq_dec (tgt cid) i) as [E|E]; [left; exists cid; split; [now left|exact E]|].
  destruct IH as [(c & Hc & Ht)|Hno]; [left; exists c; split; [now right|exact Ht]|].
  right. intros c [<-|Hc]; [exact E|now apply Hno].
Qed.

Lemma alter_fold_eq (l : list nat) (i : nat) :
  (exists cid, In cid l /\ tgt cid = i) ->
  forall plan, fold_left step l plan !! i = f <$> plan !! i.
Proof.
  induction l as [|cid t IH]; intros (c & Hc & Ht) plan; [destruct Hc|].
  simpl.
  destruct (hit_or_miss t i) as [Hex|Hno].
  - rewrite IH by exact Hex. unfold step at 1. rewrite list_lookup_alter.
    destruct (decide (tgt cid = i)) as [->|_]; [|reflexivity].
    destruct (plan !! i); simpl; [now rewrite f_idem|reflexivity].
  - rewrite alter_fold_ne by exact Hno.
    destruct Hc as [->|Hc]; [|exfalso; eapply Hno; eauto].
    subst i. apply list_lookup_alter_eq.
Qed.
End AlterFold.

Lemma write_combo_length (ctx : OptContext) (year : nat) (combo : list nat)
  (plan : list PlanRow) :
  length (write_combo ctx year combo plan) = length plan.
Proof. rewrite write_combo_unfold. apply alter_fold_length. Qed.

Lemma write_combo_ne (ctx : OptContext) (year : nat) (combo : list nat)
  (plan : list PlanRow) (i : nat) :
  (forall cid, In cid combo -> target ctx cid <> i) ->
  write_combo ctx year combo plan !! i = plan !! i.
Proof. intros Hne. rewrite write_combo_unfold. now apply alter_fold_ne. Qed.

Lemma write_combo_eq (ctx : OptContext) (year : nat) (combo : list nat)
  (plan : list PlanRow) (i : nat) :
  (exists cid, In cid combo /\ target ctx cid = i) ->
  write_combo ctx year combo plan !! i = assign_for ctx year combo <$> plan !! i.
Proof.
  intros Hex. rewrite write_combo_unfold.
  apply (alter_fold_eq (assign_for ctx year combo) (target ctx)); [|exact Hex].
  intros row. apply assign_for_overwrite.
Qed.

Lemma write_schedule_length (ctx : OptContext) (sched : list (list nat)) :
  forall year plan, length (write_schedule ctx year sched plan) = length plan.
Proof.
  induction sched as [|combo rest IH]; intros year plan; simpl; [reflexivity|].
  destruct (Nat.ltb _ _); [reflexivity|].
  rewrite IH. apply write_combo_length.
Qed.

(** A row after the write-back is the row before it, or that row with the
    assignment of one of the bundles that contain its candidate. *)
Lemma write_schedule_lookup (ctx : OptContext) (sched : list (list nat)) :
  forall year plan i row0,
    plan !! i = Some row0 ->
    exists row,
      write_schedule ctx year sched plan !! i = Some row
      /\ (row = row0
          \/ exists k c cid,
               sched !! k = Some c /\ In cid c /\ target ctx cid = i
               /\ row = assign_for ctx (year + k) c row0).
Proof.
  induction sched as [|combo rest IH]; intros year plan i row0 Hrow; simpl.
  - exists row0. split; [exact Hrow|now left].
  - destruct (Nat.ltb _ _); [exists row0; split; [exact Hrow|now left]|].
    destruct (hit_or_miss (target ctx) combo i) as [Hex|Hno].
    + pose proof (write_combo_eq ctx year combo plan i Hex) as Hw.
      rewrite Hrow in Hw. simpl in Hw.
      destruct (IH (S year) _ i _ Hw) as (row & Hl & Hcase).
      exists row. split; [exact Hl|]. right.
      destruct Hcase as [->|(k & c & cid & Hk & Hc & Ht & ->)].
      * destruct Hex as (cid & Hc & Ht). exists 0%nat, combo, cid.
        rewrite Nat.add_0_r. auto.
      * exists (S k), c, cid. rewrite assign_for_overwrite.
        replace (year + S k)%nat with (S year + k)%nat by lia. auto.
    + pose proof (write_combo_ne ctx year combo plan i Hno) as Hw.
      rewrite Hrow in Hw.
      destruct (IH (S year) _ i _ Hw) as (row & Hl & Hcase).
      exists row. split; [exact Hl|].
      destruct Hcase as [->|(k & c & cid & Hk & Hc & Ht & ->)]; [now left|].
      right. exists (S k), c, cid.
      replace (year + S k)%nat with (S year + k)%nat by lia. auto.
Qed.

Lemma write_schedule_untouched (ctx : OptContext) (sched : list (list nat)) (i : nat) :
  (forall k c cid, sched !! k = Some c -> In cid c -> target ctx cid <> i) ->
  forall year plan, write_schedule ctx year sched plan !! i = plan !! i.
Proof.
  induction sched as [|combo rest IH]; intros Hno year plan; simpl; [reflexivity|].
  destruct (Nat.ltb _ _); [reflexivity|].
  rewrite IH by (intros k c cid Hk; apply (Hno (S k) c cid Hk)).
  apply write_combo_ne. intros cid Hc. now apply (Hno 0%nat combo cid).
Qed.

(** A candidate that no later bundle contains keeps the assignment of its
    bundle. *)
Lemma write_schedule_assigned (ctx : OptContext) (sched : list (list nat)) (i : nat) :
  forall k year plan row0 c cid,
    plan !! i = Some row0 ->
    sched !! k = Some c -> In cid c -> target ctx cid = i ->
    (year + k <= planning_years ctx)%nat ->
    (forall k' c' cid',
       (k < k')%nat -> sched !! k' = Some c' -> In cid' c' -> target ctx cid' <> i) ->
    write_schedule ctx year sched plan !! i = Some (assign_for ctx (year + k) c row0).
Proof.
  induction sched as [|combo rest IH]; intros k year plan row0 c cid Hrow Hk Hc Ht Hle Hlater.
  - rewrite lookup_nil in Hk. discriminate.
  - simpl. destruct (Nat.ltb_spec (planning_years ctx) year); [lia|].
    destruct k as [|k].
    + simpl in Hk. injection Hk as ->.
      rewrite write_schedule_untouched.
      * rewrite write_combo_eq by eauto. rewrite Hrow, Nat.add_0_r. reflexivity.
      * intros k' c' cid' Hk' Hc'. apply (Hlater (S k') c' cid'); [lia|exact Hk'|exact Hc'].
    + simpl in Hk.
      assert (Hstep : exists row1,
                 write_combo ctx year combo plan !! i = Some row1
                 /\ forall y' c', assign_for ctx y' c' row1 = assign_for ctx y' c' row0).
      { destruct (hit_or_miss (target ctx) combo i) as [Hex|Hno].
        - rewrite write_combo_eq, Hrow by exact Hex. eexists. split; [reflexivity|].
          intros. apply assign_for_overwrite.
        - rewrite write_combo_ne, Hrow by exact Hno. eauto. }
      destruct Hstep as (row1 & Hw & Hsame).
      rewrite (IH k (S year) _ row1 c cid Hw Hk Hc Ht).
      * rewrite Hsame. replace (S year + k)%nat with (year + S k)%nat by lia.
        reflexivity.
      * lia.
      * intros k' c' cid' Hlt Hk'. apply (Hlater (S k') c' cid'); [lia|exact Hk'].
Qed.

(** ** Candidates and their plan rows *)

Lemma lookup_map {A B : Type} (f : A -> B) (l : list A) (i : nat) :
  List.map f l !! i = f <$> l !! i.
Proof. exact (list_lookup_fmap f l i). Qed.

Lemma lookup_nth {A : Type} (l : list A) (i : nat) (d : A) :
  (i < length l)%nat -> l !! i = Some (nth i l d).
Proof.
  intros Hlt. destruct (nth_lookup_or_length l i d) as [E|E]; [exact E|lia].
Qed.

Lemma candidate_indices_lookup (recs : list CityRecommendation) :
  forall s cid i,
    candidate_indices s recs !! cid = Some i ->
    (s <= i)%nat
    /\ exists r, recs !! (i - s)%nat = Some r /\ is_candidate r = true
                 /\ List.filter is_candidate recs !! cid = Some r.
Proof.
  induction recs as [|r t IH]; intros s cid i Hl; simpl in Hl.
  - rewrite lookup_nil in Hl. discriminate.
  - simpl. destruct (is_candidate r) eqn:Hr.
    + destruct cid as [|cid]; simpl in Hl.
      * injection Hl as <-. split; [lia|]. exists r. rewrite Nat.sub_diag. auto.
      * destruct (IH _ _ _ Hl) as (Hle & r' & Hr' & Hc & Hf).
        split; [lia|]. exists r'. replace (i - s)%nat with (S (i - S s)) by lia. auto.
    + destruct (IH _ _ _ Hl) as (Hle & r' & Hr' & Hc & Hf).
      split; [lia|]. exists r'. replace (i - s)%nat with (S (i - S s)) by lia. auto.
Qed.

Lemma candidate_indices_length (recs : list CityRecommendation) :
  forall s, length (candidate_indices s recs) = length (List.filter is_candidate recs).
Proof.
  induction recs as [|r t IH]; intros s; simpl; [reflexivity|].
  destruct (is_candidate r); simpl; now rewrite IH.
Qed.

Lemma candidate_indices_ge (recs : list CityRecommendation) :
  forall s i, In i (candidate_indices s recs) -> (s <= i)%nat.
Proof.
  intros s i Hi. apply list_elem_of_In, list_elem_of_lookup_1 in Hi.
  destruct Hi as (cid & Hl). now apply candidate_indices_lookup in Hl.
Qed.

Lemma candidate_indices_NoDup (recs : list CityRecommendation) :
  forall s, List.NoDup (candidate_indices s recs).
Proof.
  induction recs as [|r t IH]; intros s; simpl; [constructor|].
  destruct (is_candidate r); [|apply IH].
  constructor; [|apply IH].
  intros Hin. apply candidate_indices_ge in Hin. lia.
Qed.

Section Candidates.
Variables (cfg : PortfolioConfig) (recs : list CityRecommendation).
Let ctx := make_context cfg recs.

Lemma n_candidates_df_index : n_candidates ctx = length (df_index_arr ctx).
Proof. simpl. symmetry. apply candidate_indices_length. Qed.

Lemma target_candidate (cid : nat) :
  (cid < n_candidates ctx)%nat ->
  exists r, recs !! target ctx cid = Some r /\ is_candidate r = true
            /\ List.filter is_candidate recs !! cid = Some r.
Proof.
  intros Hlt. rewrite n_candidates_df_index in Hlt.
  assert (Hl : df_index_arr ctx !! cid = Some (target ctx cid))
    by (now apply lookup_nth).
  apply candidate_indices_lookup in Hl. destruct Hl as (_ & r & Hr & Hc & Hf).
  rewrite Nat.sub_0_r in Hr. eauto.
Qed.

Lemma target_inj (cid1 cid2 : nat) :
  (cid1 < n_candidates ctx)%nat -> (cid2 < n_candidates ctx)%nat ->
  target ctx cid1 = target ctx cid2 -> cid1 = cid2.
Proof.
  rewrite n_candidates_df_index. intros H1 H2 E.
  pose proof (candidate_indices_NoDup recs 0) as Hnd.
  rewrite (List.NoDup_nth _ O) in Hnd. now apply Hnd.
Qed.

(** The arrays hold the columns of the candidate rows. *)
Lemma capex_arr_target (cid : nat) (r : CityRecommendation) :
  List.filter is_candidate recs !! cid = Some r ->
  nth cid (capex_arr ctx) 0%Q = capex_estimate_eur r.
Proof.
  intros Hf. simpl. apply nth_lookup_Some with (d := 0%Q).
  now rewrite lookup_map, Hf.
Qed.

Lemma loss_arr_target (cid : nat) (r : CityRecommendation) :
  List.filter is_candidate recs !! cid = Some r ->
  nth cid (loss_arr ctx) 0%Q = city_prob_loss r.
Proof.
  intros Hf. simpl. apply nth_lookup_Some with (d := 0%Q).
  now rewrite lookup_map, Hf.
Qed.

End Candidates.

(** ** The plan of a run that completes every year *)

Section CompletedRun.
Variables (cfg : PortfolioConfig) (recs : list CityRecommendation).
Let ctx := make_context cfg recs.
Variable st : OptState.
Hypothesis Hrun : run_optimizer ctx = (st, None).
Let written := write_schedule ctx 1 (schedule st) (List.map initial_row recs).

Lemma scheduled_candidate (k : nat) (c : list nat) (cid : nat) :
  schedule st !! k = Some c -> In cid c -> (cid < n_candidates ctx)%nat.
Proof.
  intros Hk Hc. destruct (run_optimizer_inv ctx st Hrun) as (_ & _ & Hvalid & _).
  destruct (Hvalid k c Hk) as (_ & Hlt & _). now apply Hlt.
Qed.

Lemma written_row_cases (i : nat) (row : PlanRow) :
  written !! i = Some row ->
  exists r, recs !! i = Some r
    /\ (row = initial_row r
        \/ exists k c cid,
             schedule st !! k = Some c /\ In cid c /\ target ctx cid = i
             /\ row = assign_for ctx (S k) c (initial_row r)).
Proof.
  intros Hrow.
  assert (Hlt : (i < length recs)%nat).
  { apply lookup_lt_Some in Hrow. unfold written in Hrow.
    now rewrite write_schedule_length, length_map in Hrow. }
  destruct (lookup_lt_is_Some_2 recs i Hlt) as [r Hr].
  exists r. split; [exact Hr|].
  assert (H0 : List.map initial_row recs !! i = Some (initial_row r))
    by (now rewrite lookup_map, Hr).
  destruct (write_schedule_lookup ctx (schedule st) 1 _ i _ H0) as (row' & Hl & Hcase).
  fold written in Hl. rewrite Hrow in Hl. injection Hl as <-.
  destruct Hcase as [->|(k & c & cid & Hk & Hc & Ht & ->)]; [now left|].
  right. exists k, c, cid. auto.
Qed.

Lemma written_row_assigned (k : nat) (c : list nat) (cid : nat) :
  schedule st !! k = Some c -> In cid c ->
  exists r, recs !! target ctx cid = Some r /\ is_candidate r = true
    /\ List.filter is_candidate recs !! cid = Some r
    /\ written !! target ctx cid = Some (assign_for ctx (S k) c (initial_row r)).
Proof.
  intros Hk Hc.
  destruct (run_optimizer_inv ctx st Hrun) as (Hlen & _ & _ & Hdisj & _).
  pose proof (scheduled_candidate k c cid Hk Hc) as Hlt.
  destruct (target_candidate cfg recs cid Hlt) as (r & Hr & Hcand & Hf).
  fold ctx in Hr.
  exists r. repeat split; try assumption.
  assert (H0 : List.map initial_row recs !! target ctx cid = Some (initial_row r))
    by (now rewrite lookup_map, Hr).
  unfold written.
  rewrite (write_schedule_assigned ctx (schedule st) _ k 1 _ _ c cid H0 Hk Hc eq_refl).
  - reflexivity.
  - apply lookup_lt_Some in Hk. lia.
  - intros k' c' cid' Hlt' Hk' Hc' E.
    pose proof (scheduled_candidate k' c' cid' Hk' Hc') as Hlt2.
    apply (target_inj cfg recs) in E; [|assumption|assumption]. subst cid'.
    pose proof (Hdisj k k' c c' cid Hk Hk' Hc Hc'). lia.
Qed.

Lemma written_year (i : nat) (row : PlanRow) (k : nat) :
  written !! i = Some row ->
  rollout_year row = Z.of_nat (S k)
  <-> exists c cid, schedule st !! k = Some c /\ In cid c /\ target ctx cid = i.
Proof.
  intros Hrow. split.
  - intros Hy. destruct (written_row_cases i row Hrow) as (r & Hr & Hcase).
    destruct Hcase as [->|(k' & c & cid & Hk & Hc & Ht & ->)].
    + simpl in Hy. lia.
    + simpl in Hy. assert (k' = k) by lia. subst k'. eauto.
  - intros (c & cid & Hk & Hc & Ht).
    destruct (written_row_assigned k c cid Hk Hc) as (r & _ & _ & _ & Hw).
    rewrite Ht, Hrow in Hw. injection Hw as ->. reflexivity.
Qed.
End CompletedRun.

(** ** Rows of the final plan *)

Lemma feasible_completes (ctx : OptContext) :
  optimization_feasible ctx = true ->
  exists st, run_optimizer ctx = (st, None)
    /\ ((1 <= first3_years ctx)%nat ->
        (required_states ctx <= count_bits (state_mask_first3 st))%Z).
Proof.
  unfold optimization_feasible.
  destruct (run_optimizer ctx) as [st [y|]]; [discriminate|].
  intros Hf. exists st. split; [reflexivity|]. intros H1.
  apply negb_true_iff, andb_false_iff in Hf. destruct Hf as [Hf|Hf].
  - apply Nat.leb_gt in Hf. lia.
  - apply Z.ltb_ge in Hf. exact Hf.
Qed.

Lemma set_wave_unassigned (s : OptimizationStatus) (r : CityRecommendation) :
  set_wave (set_status s (initial_row r)) = set_status s (initial_row r).
Proof. reflexivity. Qed.

Lemma assign_rollout_infeasible (cfg : PortfolioConfig) (recs : list CityRecommendation) :
  List.filter is_candidate recs <> [] ->
  optimization_feasible (make_context cfg recs) = false ->
  assign_rollout cfg recs
  = List.map (fun r => set_status INFEASIBLE_CONSTRAINT_SET (initial_row r)) recs.
Proof.
  intros Hne Hinf. unfold assign_rollout.
  destruct (List.filter is_candidate recs) as [|c0 cs]; [congruence|].
  rewrite Hinf. rewrite !List.map_map. reflexivity.
Qed.

Lemma assign_rollout_no_candidates (cfg : PortfolioConfig) (recs : list CityRecommendation) :
  List.filter is_candidate recs = [] ->
  assign_rollout cfg recs
  = List.map (fun r => set_status NO_FEASIBLE_GO_OR_CONDITIONAL_CITIES (initial_row r)) recs.
Proof.
  intros He. unfold assign_rollout. rewrite He. rewrite !List.map_map. reflexivity.
Qed.

Lemma assign_rollout_feasible (cfg : PortfolioConfig) (recs : list CityRecommendation)
  (st : OptState) :
  List.filter is_candidate recs <> [] ->
  optimization_feasible (make_context cfg recs) = true ->
  run_optimizer (make_context cfg recs) = (st, None) ->
  assign_rollout cfg recs
  = List.map set_wave
      (write_schedule (make_context cfg recs) 1 (schedule st) (List.map initial_row recs)).
Proof.
  intros Hne Hf Hrun. unfold assign_rollout.
  destruct (List.filter is_candidate recs) as [|c0 cs]; [congruence|].
  now rewrite Hf, Hrun.
Qed.

(** Every row of the plan is an unassigned row or the row of a scheduled
    candidate. *)
Lemma assign_rollout_rows (cfg : PortfolioConfig) (recs : list CityRecommendation)
  (i : nat) (row : PlanRow) :
  assign_rollout cfg recs !! i = Some row ->
  exists r, recs !! i = Some r
    /\ ((exists s, row = set_status s (initial_row r))
        \/ exists st k c cid,
             optimization_feasible (make_context cfg recs) = true
             /\ run_optimizer (make_context cfg recs) = (st, None)
             /\ schedule st !! k = Some c /\ In cid c
             /\ target (make_context cfg recs) cid = i
             /\ row = set_wave (assign_for (make_context cfg recs) (S k) c (initial_row r))).
Proof.
  intros Hrow.
  destruct (List.filter is_candidate recs) as [|c0 cs] eqn:Hcand.
  - rewrite assign_rollout_no_candidates, lookup_map in Hrow by exact Hcand.
    destruct (recs !! i) as [r|]; [|discriminate]. injection Hrow as <-.
    exists r. split; [reflexivity|]. left. eauto.
  - assert (Hne : List.filter is_candidate recs <> []) by congruence.
    destruct (optimization_feasible (make_context cfg recs)) eqn:Hf.
    + destruct (feasible_completes _ Hf) as (st & Hrun & _).
      rewrite (assign_rollout_feasible cfg recs st Hne Hf Hrun), lookup_map in Hrow.
      destruct (write_schedule _ _ _ _ !! i) as [row1|] eqn:Hw; [|discriminate].
      injection Hrow as <-.
      destruct (written_row_cases cfg recs st i row1 Hw) as (r & Hr & Hcase).
      exists r. split; [exact Hr|].
      destruct Hcase as [->|(k & c & cid & Hk & Hc & Ht & ->)].
      * left. exists UNASSIGNED. reflexivity.
      * right. exists st, k, c, cid. repeat split; assumption || reflexivity.
    + rewrite assign_rollout_infeasible, lookup_map in Hrow by assumption.
      destruct (recs !! i) as [r|]; [|discriminate]. injection Hrow as <-.
      exists r. split; [reflexivity|]. left. eauto.
Qed.

Lemma portfolio_perm (cfg : PortfolioConfig) (recs : list CityRecommendation) :
  Permutation (build_city_portfolio cfg recs) (assign_rollout cfg recs).
Proof. apply stable_sort_perm. Qed.

Lemma portfolio_In (cfg : PortfolioConfig) (recs : list CityRecommendation) (row : PlanRow) :
  In row (build_city_portfolio cfg recs)
  <-> exists i, assign_rollout cfg recs !! i = Some row.
Proof.
  unfold build_city_portfolio. rewrite stable_sort_In, <- list_elem_of_In.
  apply list_elem_of_lookup.
Qed.

(** * The claims about the rollout optimizer *)

(** C5.  A city whose board signal is NO-GO is never given a rollout year:
    in the plan of every configuration its row keeps the year -1 and is not
    marked as selected by the optimizer. *)
Theorem no_go_never_assigned (cfg : PortfolioConfig) (recs : list CityRecommendation)
  (row : PlanRow) :
  In row (build_city_portfolio cfg recs) ->
  board_signal (rec row) = NO_GO ->
  rollout_year row = (-1)%Z /\ selected_by_optimizer row = false.
Proof.
  intros Hin Hsig. apply portfolio_In in Hin. destruct Hin as (i & Hrow).
  destruct (assign_rollout_rows cfg recs i row Hrow) as (r & Hr & Hcase).
  destruct Hcase as [(s & ->)|(st & k & c & cid & _ & Hrun & Hk & Hc & Ht & ->)].
  - split; reflexivity.
  - exfalso. simpl in Hsig.
    pose proof (scheduled_candidate cfg recs st Hrun k c cid Hk Hc) as Hlt.
    destruct (target_candidate cfg recs cid Hlt) as (r' & Hr' & Hcand & _).
    rewrite Ht, Hr in Hr'. injection Hr' as <-.
    unfold is_candidate in Hcand. rewrite Hsig in Hcand. discriminate.
Qed.

Lemma no_go_never_assigned_witness :
  rollout_year
    (set_status UNASSIGNED (initial_row (mk_city "Bremen" "Bremen" NO_GO (-5) (9 # 10) 30)))
  = (-1)%Z
  /\ selected_by_optimizer
       (set_status UNASSIGNED (initial_row (mk_city "Bremen" "Bremen" NO_GO (-5) (9 # 10) 30)))
     = false.
Proof.
  apply (no_go_never_assigned two_state_cfg two_state_recs).
  - vm_compute. right. right. right. left. reflexivity.
  - reflexivity.
Defined.

(** C4.  When the optimizer declares the constraint set infeasible (a year
    without a surviving bundle, or the diversification floor unmet after the
    scan), every row carries the status INFEASIBLE_CONSTRAINT_SET, which is
    not the status of a run without candidates, and every city is as it was
    before the optimization: year -1, wave Hold, not selected. *)
Theorem infeasible_plan_assigns_nothing (cfg : PortfolioConfig)
  (recs : list CityRecommendation) :
  List.filter is_candidate recs <> [] ->
  ((exists y, snd (run_optimizer (make_context cfg recs)) = Some y)
   \/ ((1 <= first3_years (make_context cfg recs))%nat
       /\ (count_bits (state_mask_first3 (fst (run_optimizer (make_context cfg recs))))
           < required_states (make_context cfg recs))%Z)) ->
  Permutation (build_city_portfolio cfg recs)
    (List.map (fun r => set_status INFEASIBLE_CONSTRAINT_SET (initial_row r)) recs)
  /\ (forall row, In row (build_city_portfolio cfg recs) ->
        optimization_status row = INFEASIBLE_CONSTRAINT_SET
        /\ rollout_year row = (-1)%Z
        /\ launch_wave row = Hold
        /\ selected_by_optimizer row = false)
  /\ INFEASIBLE_CONSTRAINT_SET <> NO_FEASIBLE_GO_OR_CONDITIONAL_CITIES
  /\ (forall cfg' recs' row,
        List.filter is_candidate recs' = [] ->
        In row (build_city_portfolio cfg' recs') ->
        optimization_status row = NO_FEASIBLE_GO_OR_CONDITIONAL_CITIES).
Proof.
  intros Hne Hdecl.
  assert (Hinf : optimization_feasible (make_context cfg recs) = false).
  { unfold optimization_feasible.
    destruct (run_optimizer (make_context cfg recs)) as [st [y|]]; [reflexivity|].
    destruct Hdecl as [(y & Hy)|(H1 & Hlt)]; [discriminate|]. simpl in Hlt.
    apply negb_false_iff, andb_true_iff. split.
    - now apply Nat.leb_le.
    - now apply Z.ltb_lt. }
  assert (Hperm : Permutation (build_city_portfolio cfg recs)
            (List.map (fun r => set_status INFEASIBLE_CONSTRAINT_SET (initial_row r)) recs)).
  { rewrite <- (assign_rollout_infeasible cfg recs Hne Hinf). apply portfolio_perm. }
  split; [exact Hperm|]. split; [|split; [discriminate|]].
  - intros row Hin. apply (Permutation_in _ Hperm) in Hin.
    apply in_map_iff in Hin. destruct Hin as (r & <- & _). repeat split.
  - intros cfg' recs' row He Hin.
    apply (Permutation_in _ (portfolio_perm cfg' recs')) in Hin.
    rewrite (assign_rollout_no_candidates cfg' recs' He) in Hin.
    apply in_map_iff in Hin. destruct Hin as (r & <- & _). reflexivity.
Qed.

Lemma infeasible_plan_assigns_nothing_witness :
  Permutation (build_city_portfolio one_year_cfg one_year_recs)
    (List.map (fun r => set_status INFEASIBLE_CONSTRAINT_SET (initial_row r)) one_year_recs).
Proof.
  apply (infeasible_plan_assigns_nothing one_year_cfg one_year_recs).
  - vm_compute. discriminate.
  - left. exists 1%nat. vm_compute. reflexivity.
Defined.

(** C10.  The bundle list of every year holds the empty bundle (no city,
    score, capex and mean risk 0) whatever the budget and the risk cap; the
    empty bundle overlaps no launched city; after the diversification window
    a best bundle always exists; so the loop can only break off in a year of
    the window. *)
Theorem abort_only_inside_window (ctx : OptContext) (year : nat) :
  In empty_bundle (yearly_bundles ctx year)
  /\ ids empty_bundle = []
  /\ (score empty_bundle == 0)%Q
  /\ (capex_sum empty_bundle == 0)%Q
  /\ (risk_avg empty_bundle == 0)%Q
  /\ (forall st, Z.land (mask empty_bundle) (launched_mask st) = 0%Z)
  /\ (forall st, (first3_years ctx < year)%nat -> is_Some (select_best_bundle ctx year st))
  /\ (forall st y,
        run_optimizer ctx = (st, Some y) ->
        (1 <= y <= planning_years ctx)%nat /\ (y <= first3_years ctx)%nat).
Proof.
  split; [apply empty_bundle_listed|].
  do 4 (split; [reflexivity|]).
  split; [intros st; reflexivity|].
  split; [intros st; apply select_best_bundle_late|].
  intros st y Hrun. apply run_years_break in Hrun. destruct Hrun as [Hin Hle].
  apply in_seq in Hin. lia.
Qed.

Lemma abort_only_inside_window_witness :
  (1 <= 1 <= planning_years (make_context one_year_cfg one_year_recs))%nat
  /\ (1 <= first3_years (make_context one_year_cfg one_year_recs))%nat.
Proof.
  apply (abort_only_inside_window (make_context one_year_cfg one_year_recs) 1)
    with (st := initial_state).
  vm_compute. reflexivity.
Defined.

(** ** Filters, positions and sums *)

Lemma filter_perm {A : Type} (p : A -> bool) (l l' : list A) :
  Permutation l l' -> Permutation (List.filter p l) (List.filter p l').
Proof.
  induction 1 as [|x l l' _ IH|x y l|l l' l'' _ IH1 _ IH2]; simpl.
  - constructor.
  - destruct (p x); [now constructor|exact IH].
  - destruct (p x), (p y); try reflexivity. apply perm_swap.
  - now rewrite IH1.
Qed.

Lemma filter_map_comm {A B : Type} (p : B -> bool) (g : A -> B) (l : list A) :
  List.filter p (List.map g l) = List.map g (List.filter (fun a => p (g a)) l).
Proof.
  induction l as [|x t IH]; simpl; [reflexivity|].
  destruct (p (g x)); simpl; now rewrite IH.
Qed.

Lemma filter_nth_seq {A : Type} (p : A -> bool) (d : A) (l : list A) :
  List.filter p l
  = List.map (fun i => nth i l d)
      (List.filter (fun i => p (nth i l d)) (seq 0 (length l))).
Proof.
  induction l as [|x t IH]; [reflexivity|].
  cbn [length seq]. rewrite <- seq_shift. cbn [List.filter nth].
  rewrite filter_map_comm.
  destruct (p x); cbn [List.map nth]; rewrite List.map_map; cbn [nth]; now rewrite <- IH.
Qed.

Lemma NoDup_map_on {A B : Type} (f : A -> B) (l : list A) :
  List.NoDup l ->
  (forall x y, In x l -> In y l -> f x = f y -> x = y) ->
  List.NoDup (List.map f l).
Proof.
  induction 1 as [|x t Hx Ht IH]; intros Hinj; simpl; constructor.
  - intros Hin. apply in_map_iff in Hin. destruct Hin as (y & E & Hy).
    apply Hinj in E; [|now right|now left]. subst y. contradiction.
  - apply IH. intros a b Ha Hb. apply Hinj; now right.
Qed.

Lemma nth_firstn_lt {A : Type} (l : list A) (n i : nat) (d : A) :
  (i < n)%nat -> nth i (firstn n l) d = nth i l d.
Proof.
  revert n i. induction l as [|x t IH]; intros [|n] [|i] Hlt; simpl; try lia; try reflexivity.
  apply IH. lia.
Qed.

(** ** The rows of one year *)

Section YearRows.
Variables (cfg : PortfolioConfig) (recs : list CityRecommendation).
Let ctx := make_context cfg recs.
Variable st : OptState.
Hypothesis Hrun : run_optimizer ctx = (st, None).
Let written := write_schedule ctx 1 (schedule st) (List.map initial_row recs).
Variables (k : nat) (c : list nat).
Hypothesis Hk : schedule st !! k = Some c.

Let in_year := fun row : PlanRow => (rollout_year row =? Z.of_nat (S k))%Z.

Lemma year_positions :
  Permutation
    (List.filter (fun i => in_year (nth i written no_row)) (seq 0 (length written)))
    (List.map (target ctx) c).
Proof.
  destruct (run_optimizer_inv ctx st Hrun) as (_ & _ & Hvalid & _).
  destruct (Hvalid k c Hk) as (Hnd & Hlt & _).
  apply Permutation.NoDup_Permutation.
  - apply List.NoDup_filter, seq_NoDup.
  - apply NoDup_map_on; [exact Hnd|].
    intros x y Hx Hy. apply (target_inj cfg recs); auto.
  - intros i. rewrite filter_In, in_seq, in_map_iff. unfold in_year. split.
    + intros [[_ Hi] Hy]. simpl in Hi. apply Z.eqb_eq in Hy.
      pose proof (lookup_nth written i no_row Hi) as Hrow.
      apply (written_year cfg recs st Hrun i _ k Hrow) in Hy.
      destruct Hy as (c' & cid & Hk' & Hc & Ht).
      rewrite Hk in Hk'. injection Hk' as <-. eauto.
    + intros (cid & Ht & Hc).
      destruct (written_row_assigned cfg recs st Hrun k c cid Hk Hc)
        as (r & _ & _ & _ & Hw).
      fold ctx in Hw. fold written in Hw. rewrite Ht in Hw.
      split; [split; [lia|apply (lookup_lt_Some _ _ _ Hw)]|].
      rewrite (nth_lookup_Some _ _ no_row _ Hw). apply Z.eqb_refl.
Qed.

Lemma year_rows_perm :
  Permutation (List.filter in_year written)
    (List.map (fun cid => nth (target ctx cid) written no_row) c).
Proof.
  rewrite (filter_nth_seq in_year no_row written), year_positions.
  now rewrite List.map_map.
Qed.

Lemma year_row_rec (cid : nat) :
  In cid c ->
  exists r, List.filter is_candidate recs !! cid = Some r
    /\ rec (nth (target ctx cid) written no_row) = r.
Proof.
  intros Hc.
  destruct (written_row_assigned cfg recs st Hrun k c cid Hk Hc)
    as (r & _ & _ & Hf & Hw).
  fold ctx in Hw. fold written in Hw.
  exists r. split; [exact Hf|].
  now rewrite (nth_lookup_Some _ _ no_row _ Hw).
Qed.

Lemma year_capex :
  Permutation (List.map (fun row => capex_estimate_eur (rec row)) (List.filter in_year written))
    (take_q (capex_arr ctx) c).
Proof.
  rewrite year_rows_perm, List.map_map. unfold take_q.
  erewrite map_ext_in; [reflexivity|].
  intros cid Hc. destruct (year_row_rec cid Hc) as (r & Hf & ->).
  symmetry. now apply capex_arr_target.
Qed.

Lemma year_loss :
  Permutation (List.map (fun row => city_prob_loss (rec row)) (List.filter in_year written))
    (take_q (loss_arr ctx) c).
Proof.
  rewrite year_rows_perm, List.map_map. unfold take_q.
  erewrite map_ext_in; [reflexivity|].
  intros cid Hc. destruct (year_row_rec cid Hc) as (r & Hf & ->).
  symmetry. now apply loss_arr_target.
Qed.

End YearRows.

(** ** The plan as a whole *)




Lemma risk_cap_at (cfg : PortfolioConfig) (recs : list CityRecommendation) (k : nat) :
  (k < planning_years (make_context cfg recs))%nat ->
  nth k (annual_loss_risk_cap (make_context cfg recs)) 0%Q
  = nth k (annual_loss_risk_cap_cfg cfg) 0%Q.
Proof. simpl. intros Hlt. now apply nth_firstn_lt. Qed.


(** The rows of an assigned year are the rows of that year's bundle. *)
Lemma assigned_year_schedule (cfg : PortfolioConfig) (recs : list CityRecommendation)
  (y : Z) :
  y <> (-1)%Z ->
  assigned_to (build_city_portfolio cfg recs) y <> [] ->
  exists st k c,
    run_optimizer (make_context cfg recs) = (st, None)
    /\ schedule st !! k = Some c /\ c <> [] /\ y = Z.of_nat (S k)
    /\ Permutation (assigned_to (build_city_portfolio cfg recs) y)
         (List.map set_wave
            (List.filter (fun row => (rollout_year row =? Z.of_nat (S k))%Z)
               (write_schedule (make_context cfg recs) 1 (schedule st)
                  (List.map initial_row recs)))).
Proof.
  intros Hy Hne.
  destruct (assigned_to (build_city_portfolio cfg recs) y) as [|row rest] eqn:Ha;
    [congruence|].
  assert (Hin : In row (assigned_to (build_city_portfolio cfg recs) y))
    by (rewrite Ha; now left).
  unfold assigned_to in Hin. apply filter_In in Hin. destruct Hin as [Hin Hyear].
  apply Z.eqb_eq in Hyear. apply portfolio_In in Hin. destruct Hin as (i & Hrow).
  destruct (assign_rollout_rows cfg recs i row Hrow) as (r & Hr & Hcase).
  destruct Hcase as [(s & ->)|(st & k & c & cid & Hf & Hrun & Hk & Hc & Ht & ->)].
  - simpl in Hyear. congruence.
  - simpl in Hyear. exists st, k, c.
    split; [exact Hrun|]. split; [exact Hk|].
    split; [intros ->; destruct Hc|]. split; [lia|].
    rewrite <- Ha. unfold assigned_to.
    rewrite (filter_perm _ _ _ (portfolio_perm cfg recs)).
    assert (Hcand : List.filter is_candidate recs <> []).
    { pose proof (scheduled_candidate cfg recs st Hrun k c cid Hk Hc) as Hlt.
      simpl in Hlt. intros E. rewrite E in Hlt. simpl in Hlt. lia. }
    rewrite (assign_rollout_feasible cfg recs st Hcand Hf Hrun), filter_map_comm.
    subst y. reflexivity.
Qed.




(** ** Counting the bits of a union of one-hot masks *)






Section MaskUnion.
Context {A : Type} (bit : A -> Z).



End MaskUnion.

Section OneHotUnion.
Context {A : Type} (lab : A -> string) (idx : string -> nat).



End OneHotUnion.



(** ** The states secured inside the window *)





Section WindowStates.
Variables (cfg : PortfolioConfig) (recs : list CityRecommendation).
Let ctx := make_context cfg recs.
Variable st : OptState.
Hypothesis Hrun : run_optimizer ctx = (st, None).
Hypothesis Hfeasible : optimization_feasible ctx = true.



End WindowStates.





(** * Facts about the statistics *)

(** ** Grouping *)

Section GroupByFacts.
Context {A K : Type} (key_eqb : K -> K -> bool) (key : A -> K).
Hypothesis key_eqb_eq : forall a b, key_eqb a b = true <-> a = b.

Lemma key_eqb_neq (a b : K) : key_eqb a b = false <-> a <> b.
Proof.
  rewrite <- key_eqb_eq. destruct (key_eqb a b); split; congruence.
Qed.

Lemma add_to_group_In (x : A) (groups : list (K * list A)) :
  List.NoDup (List.map fst groups) ->
  forall k rows',
    In (k, rows') (add_to_group key_eqb key x groups) ->
    (k <> key x /\ In (k, rows') groups)
    \/ (k = key x
        /\ ((exists rows, In (k, rows) groups /\ rows' = rows ++ [x])
            \/ (~ In k (List.map fst groups) /\ rows' = [x]))).
Proof.
  induction groups as [|[k0 r0] rest IH]; intros Hnd k rows' Hin; simpl in Hin.
  - destruct Hin as [[= <- <-]|[]]. right. split; [reflexivity|]. right. auto.
  - simpl in Hnd. apply List.NoDup_cons_iff in Hnd. destruct Hnd as [Hk0 Hnd].
    destruct (key_eqb k0 (key x)) eqn:E.
    + apply key_eqb_eq in E. subst k0.
      destruct Hin as [[= <- <-]|Hin].
      * right. split; [reflexivity|]. left. exists r0. split; [now left|reflexivity].
      * left. split; [|now right].
        intros ->. apply Hk0. apply in_map_iff. now exists (key x, rows').
    + apply key_eqb_neq in E.
      destruct Hin as [[= <- <-]|Hin]; [left; split; [exact E|now left]|].
      destruct (IH Hnd k rows' Hin) as [[Hne Hr]|[-> Hcase]].
      * left. split; [exact Hne|now right].
      * right. split; [reflexivity|].
        destruct Hcase as [(rows & Hr & ->)|[Hnot ->]].
        -- left. exists rows. split; [now right|reflexivity].
        -- right. split; [|reflexivity]. simpl. intros [E'|Hin']; [congruence|auto].
Qed.

Lemma add_to_group_keys (x : A) (groups : list (K * list A)) :
  (In (key x) (List.map fst groups)
   /\ List.map fst (add_to_group key_eqb key x groups) = List.map fst groups)
  \/ (~ In (key x) (List.map fst groups)
      /\ List.map fst (add_to_group key_eqb key x groups)
         = List.map fst groups ++ [key x]).
Proof.
  induction groups as [|[k0 r0] rest IH]; simpl.
  - right. split; [tauto|reflexivity].
  - destruct (key_eqb k0 (key x)) eqn:E.
    + apply key_eqb_eq in E. left. split; [now left|reflexivity].
    + apply key_eqb_neq in E. simpl.
      destruct IH as [[Hin ->]|[Hnot ->]].
      * left. split; [now right|reflexivity].
      * right. split; [|reflexivity]. intros [E'|Hin]; [congruence|auto].
Qed.

Lemma add_to_group_grouped (p : list A) (x : A) (groups : list (K * list A)) :
  grouped key_eqb key p groups ->
  grouped key_eqb key (p ++ [x]) (add_to_group key_eqb key x groups).
Proof.
  intros (Hrows & Hnd & Hall). split; [|split].
  - intros k rows' Hin. rewrite List.filter_app. simpl.
    destruct (add_to_group_In x groups Hnd k rows' Hin) as [[Hne Hr]|[-> Hcase]].
    + destruct (Hrows k rows' Hr) as [-> Hnon].
      apply key_eqb_neq in Hne. rewrite Hne, app_nil_r. auto.
    + rewrite (proj2 (key_eqb_eq (key x) (key x)) eq_refl).
      destruct Hcase as [(rows & Hr & ->)|[Hnot ->]].
      * destruct (Hrows _ rows Hr) as [<- _].
        split; [reflexivity|]. now destruct rows.
      * split; [|discriminate].
        destruct (List.filter _ p) as [|y t] eqn:Hf; [reflexivity|].
        exfalso. apply Hnot.
        assert (Hy : In y (List.filter (fun y => key_eqb (key x) (key y)) p))
          by (rewrite Hf; now left).
        apply filter_In in Hy. destruct Hy as [Hy E].
        apply key_eqb_eq in E. rewrite E. now apply Hall.
  - destruct (add_to_group_keys x groups) as [[_ ->]|[Hnot ->]]; [exact Hnd|].
    apply (Permutation_NoDup (Permutation_cons_append _ _)).
    now constructor.
  - intros y Hy. apply in_app_or in Hy.
    destruct (add_to_group_keys x groups) as [[Hin ->]|[Hnot ->]].
    + destruct Hy as [Hy|[<-|[]]]; [now apply Hall|exact Hin].
    + apply in_or_app. destruct Hy as [Hy|[<-|[]]]; [left; now apply Hall|right; now left].
Qed.

Lemma fold_add_grouped (l : list A) :
  forall p groups,
    grouped key_eqb key p groups ->
    grouped key_eqb key (p ++ l)
      (fold_left (fun g x => add_to_group key_eqb key x g) l groups).
Proof.
  induction l as [|x t IH]; intros p groups Hg; simpl.
  - now rewrite app_nil_r.
  - replace (p ++ x :: t) with ((p ++ [x]) ++ t) by now rewrite <- app_assoc.
    apply IH. now apply add_to_group_grouped.
Qed.

Lemma group_by_grouped (l : list A) : grouped key_eqb key l (group_by key_eqb key l).
Proof.
  apply (fold_add_grouped l [] []). split; [|split].
  - intros k rows [].
  - constructor.
  - intros y [].
Qed.
End GroupByFacts.


(** ** Decision matrix *)







(** The decision matrix exists as soon as every strategy has a base-case
    row. *)
Lemma build_decision_matrix_total (summary_df : list Summary.Row)
  (scenario_probs : gmap string Q) :
  (forall r, In r summary_df ->
     exists b, In b summary_df
       /\ Summary.strategy b = Summary.strategy r
       /\ Summary.scenario b = "base_case"%string) ->
  is_Some (build_decision_matrix summary_df scenario_probs).
Proof.
  intros Hbase. unfold build_decision_matrix.
  assert (Hall : is_Some (mapM (decision_row scenario_probs)
                            (group_by String.eqb Summary.strategy summary_df))).
  { apply mapM_is_Some_2, List.Forall_forall. intros [name group] Hg.
    destruct (group_by_grouped String.eqb Summary.strategy String.eqb_eq summary_df)
      as (Hrows & _ & _).
    destruct (Hrows name group Hg) as [Hfilter Hnon].
    destruct group as [|r rest] eqn:Hgroup; [congruence|].
    assert (Hr : In r (List.filter (fun y => String.eqb name (Summary.strategy y))
                         summary_df)) by (rewrite <- Hfilter; now left).
    apply filter_In in Hr. destruct Hr as [Hr Hname]. apply String.eqb_eq in Hname.
    destruct (Hbase r Hr) as (b & Hb & Hsame & Hscen).
    assert (Hbg : In b (r :: rest)).
    { rewrite Hfilter. apply filter_In. split; [exact Hb|].
      apply String.eqb_eq. congruence. }
    unfold compose, decision_row. cbn [snd fst].
    destruct (List.filter _ (r :: rest)) as [|base others] eqn:Hf; [|eauto].
    exfalso.
    assert (Hin : In b (List.filter
                          (fun r0 => String.eqb (Summary.scenario r0) "base_case")
                          (r :: rest))).
    { apply filter_In. split; [exact Hbg|]. now apply String.eqb_eq. }
    rewrite Hf in Hin. destruct Hin. }
  destruct Hall as [rows Hrows]. rewrite Hrows. simpl. eauto.
Qed.




(** ** Order statistics *)








Section Quantile.
Variable xs : list Q.
Hypothesis xs_nonempty : xs <> [].

Let n := length xs.
Let sorted := stable_sort Qltb xs.





End Quantile.

(** ** Means and shares *)










(** * Facts about the household simulation *)

(** ** Break-even spend *)

Lemma evaluate_strategy_break_even (config : SimConfig) (consumer : GermanConsumer)
  (strategy_name : string) (strategy_cfg : Strategy.Cfg) (scenario_name : string)
  (scenario_cfg : Scenario.Cfg) (spends discounts noise : list R) (competitor_shock : R) :
  Replication.break_even_monthly_spend_eur
    (fst (evaluate_strategy config consumer strategy_name strategy_cfg scenario_name
            scenario_cfg spends discounts noise competitor_shock))
  = snd (calculate_membership_break_even
           (Rmax 0 (Strategy.membership_fee_eur strategy_cfg
                    - Strategy.first_year_subsidy_eur strategy_cfg))
           (rmean discounts)
           (Scenario.inflation_percent scenario_cfg / 100)).
Proof. reflexivity. Qed.

(** C8.  The yearly break-even spend is the fee times (1 + inflation) over
    the discount, the discount floored at 0.001; the monthly value is the
    yearly one over 12; for fee 35 without subsidy, discount 0.10 and
    inflation 0.02 the monthly break-even spend of the outcome row is 29.75. *)
Theorem break_even_formula (membership_fee bulk_discount inflation_rate : R) :
  (fst (calculate_membership_break_even membership_fee bulk_discount inflation_rate)
   = membership_fee * (1 + inflation_rate) / Rmax bulk_discount (1 / 1000))%R
  /\ (snd (calculate_membership_break_even membership_fee bulk_discount inflation_rate)
      = fst (calculate_membership_break_even membership_fee bulk_discount inflation_rate)
        / 12)%R
  /\ ((1 / 1000 <= bulk_discount)%R ->
      (fst (calculate_membership_break_even membership_fee bulk_discount inflation_rate)
       = membership_fee * (1 + inflation_rate) / bulk_discount)%R)
  /\ ((bulk_discount <= 1 / 1000)%R ->
      (fst (calculate_membership_break_even membership_fee bulk_discount inflation_rate)
       = membership_fee * (1 + inflation_rate) * 1000)%R)
  /\ (snd (calculate_membership_break_even 35 (10 / 100) (2 / 100)) = 2975 / 100)%R
  /\ (forall config consumer strategy_name strategy_cfg scenario_name scenario_cfg
        spends discounts noise competitor_shock,
        Strategy.membership_fee_eur strategy_cfg = 35%R ->
        Strategy.first_year_subsidy_eur strategy_cfg = 0%R ->
        Scenario.inflation_percent scenario_cfg = 2%R ->
        rmean discounts = (10 / 100)%R ->
        Replication.break_even_monthly_spend_eur
          (fst (evaluate_strategy config consumer strategy_name strategy_cfg
                  scenario_name scenario_cfg spends discounts noise competitor_shock))
        = (2975 / 100)%R).
Proof.
  assert (Hexample : (snd (calculate_membership_break_even 35 (10 / 100) (2 / 100))
                      = 2975 / 100)%R).
  { unfold calculate_membership_break_even. cbn [snd].
    rewrite Rmax_left by rlra. field. }
  split; [reflexivity|]. split; [reflexivity|]. split; [|split; [|split]].
  - intros Hge. unfold calculate_membership_break_even. cbn [fst].
    now rewrite Rmax_left.
  - intros Hle. unfold calculate_membership_break_even. cbn [fst].
    rewrite Rmax_right by exact Hle. field.
  - exact Hexample.
  - intros config consumer strategy_name strategy_cfg scenario_name scenario_cfg
      spends discounts noise competitor_shock Hfee Hsub Hinf Hdisc.
    rewrite evaluate_strategy_break_even, Hfee, Hsub, Hinf, Hdisc.
    replace (Rmax 0 (35 - 0)) with 35%R by (rewrite Rmax_right; rlra).
    exact Hexample.
Qed.

Lemma break_even_formula_witness :
  Replication.break_even_monthly_spend_eur
    (fst (evaluate_strategy sample_sim_config sample_consumer "entry_35" entry_35
            "base_case" base_case [1800; 2200]%R [10 / 100; 10 / 100]%R [0; 0]%R 0%R))
  = (2975 / 100)%R.
Proof.
  apply (proj2 (proj2 (proj2 (proj2 (proj2 (break_even_formula 35 (10 / 100) (2 / 100))))))).
  - reflexivity.
  - reflexivity.
  - reflexivity.
  - unfold rmean, rsum. simpl. field.
Defined.

(** ** Adoption *)







(** ** The replication engine *)

Section EngineFacts.
Context `{NumpyRandom}.
Variables (config : SimConfig) (consumer : GermanConsumer).

Lemma strategy_fold (scenario_name : string) (scenario_cfg : Scenario.Cfg) (rep : nat)
  (draws : list R * list R * list R) (strategies : list (string * Strategy.Cfg)) :
  forall (rng : generator) (st : EngineState),
    snd (fold_left (strategy_step config consumer scenario_name scenario_cfg rep draws)
           strategies (rng, st))
    = {| rows := rows st
                 ++ strategy_rows config consumer scenario_name scenario_cfg rep draws
                      rng strategies;
         adoption_samples :=
           adoption_samples st
           ++ strategy_samples config consumer scenario_name scenario_cfg rep draws
                rng strategies |}.
Proof.
  induction strategies as [|strategy rest IH]; intros rng st.
  - simpl. rewrite !app_nil_r. now destruct st.
  - cbn [fold_left strategy_rows strategy_samples].
    unfold strategy_step at 2. destruct draws as [[spends discounts] noise].
    cbn [fst snd]. destruct (normal1 _ _ rng) as [shock rng'].
    destruct (evaluate_strategy _ _ _ _ _ _ _ _ _ _) as [row probs] eqn:Hev.
    rewrite IH. cbn [rows adoption_samples fst snd].
    destruct (String.eqb scenario_name "base_case" && Nat.eqb rep 0);
      rewrite <- ?app_assoc; reflexivity.
Qed.

Variable os_entropy : nat -> nat -> entropy.

Lemma replication_fold (item : nat * (string * Scenario.Cfg)) (reps : list nat) :
  forall st : EngineState,
    fold_left
      (replication_step config consumer os_entropy (fst item) (fst (snd item))
         (snd (snd item))) reps st
    = {| rows := rows st
                 ++ flat_map (replication_rows config consumer os_entropy item) reps;
         adoption_samples :=
           adoption_samples st
           ++ flat_map (replication_samples config consumer os_entropy item) reps |}.
Proof.
  induction reps as [|rep rest IH]; intros st.
  - simpl. rewrite !app_nil_r. now destruct st.
  - cbn [fold_left flat_map]. rewrite IH.
    unfold replication_step, replication_rows, replication_samples, pair_draws, seed_of.
    destruct (generate_draws _ _ _) as [draws rng1].
    rewrite strategy_fold. cbn [rows adoption_samples fst snd].
    now rewrite <- !app_assoc.
Qed.

Lemma scenario_fold (items : list (nat * (string * Scenario.Cfg))) :
  forall st : EngineState,
    fold_left (scenario_step config consumer os_entropy) items st
    = {| rows :=
           rows st
           ++ flat_map
                (fun item =>
                   flat_map (replication_rows config consumer os_entropy item)
                     (seq 0 (n_replications config))) items;
         adoption_samples :=
           adoption_samples st
           ++ flat_map
                (fun item =>
                   flat_map (replication_samples config consumer os_entropy item)
                     (seq 0 (n_replications config))) items |}.
Proof.
  induction items as [|item rest IH]; intros st.
  - simpl. rewrite !app_nil_r. now destruct st.
  - cbn [fold_left flat_map]. rewrite IH. unfold scenario_step.
    rewrite replication_fold. cbn [rows adoption_samples].
    now rewrite <- !app_assoc.
Qed.

Lemma run_replication_engine_spec :
  run_replication_engine config consumer os_entropy
  = match spec_samples config consumer os_entropy with
    | [] => None
    | _ :: _ =>
        Some (spec_rows config consumer os_entropy,
              concat (spec_samples config consumer os_entropy))
    end.
Proof.
  unfold run_replication_engine. rewrite scenario_fold. reflexivity.
Qed.
End EngineFacts.

Section EngineDeterminism.
Context `{NumpyRandom}.
Variables (config : SimConfig) (consumer : GermanConsumer).
Variables e1 e2 : nat -> nat -> entropy.

Lemma pair_draws_entropy (i : nat) (scenario_cfg : Scenario.Cfg) (rep : nat) :
  pair_draws config e1 i scenario_cfg rep = pair_draws config e2 i scenario_cfg rep.
Proof.
  unfold pair_draws. now rewrite (default_rng_seeded _ (e1 i rep) (e2 i rep)).
Qed.

Lemma spec_rows_entropy :
  spec_rows config consumer e1 = spec_rows config consumer e2.
Proof.
  unfold spec_rows. apply flat_map_ext. intros item. apply flat_map_ext. intros rep.
  unfold replication_rows. now rewrite pair_draws_entropy.
Qed.

Lemma spec_samples_entropy :
  spec_samples config consumer e1 = spec_samples config consumer e2.
Proof.
  unfold spec_samples. apply flat_map_ext. intros item. apply flat_map_ext. intros rep.
  unfold replication_samples. now rewrite pair_draws_entropy.
Qed.
End EngineDeterminism.

Lemma in_enumerate {A : Type} (x : A) (l : list A) :
  In x l -> forall s, exists i, In (i, x) (combine (seq s (length l)) l).
Proof.
  induction l as [|y t IH]; intros Hin s; [destruct Hin|].
  simpl. destruct Hin as [->|Hin].
  - exists s. now left.
  - destruct (IH Hin (S s)) as (i & Hi). exists i. now right.
Qed.

Section EngineTotal.
Context `{NumpyRandom}.
Variables (config : SimConfig) (consumer : GermanConsumer).
Variable os_entropy : nat -> nat -> entropy.

Lemma strategy_samples_nonempty (scenario_cfg : Scenario.Cfg)
  (draws : list R * list R * list R) (rng : generator)
  (strategies : list (string * Strategy.Cfg)) :
  strategies <> [] ->
  strategy_samples config consumer "base_case" scenario_cfg 0 draws rng strategies <> [].
Proof.
  destruct strategies as [|strategy rest]; [congruence|]. intros _.
  cbn [strategy_samples]. destruct (normal1 _ _ rng) as [shock rng'].
  simpl. discriminate.
Qed.

Lemma spec_samples_nonempty :
  (0 < n_replications config)%nat ->
  strategy_options config <> [] ->
  In "base_case" (List.map fst (macro_scenarios config)) ->
  spec_samples config consumer os_entropy <> [].
Proof.
  intros Hrep Hstr Hbase.
  apply in_map_iff in Hbase. destruct Hbase as ([name scenario_cfg] & Hname & Hin).
  simpl in Hname. subst name.
  destruct (in_enumerate _ _ Hin 0) as (i & Hi).
  pose proof (strategy_samples_nonempty scenario_cfg
                (fst (pair_draws config os_entropy i scenario_cfg 0))
                (snd (pair_draws config os_entropy i scenario_cfg 0))
                (strategy_options config) Hstr) as Hnon.
  destruct (strategy_samples _ _ _ _ _ _ _ _) as [|sample rest] eqn:Hs; [congruence|].
  intros Hnil.
  assert (Hmem : In sample (spec_samples config consumer os_entropy)).
  { unfold spec_samples. apply in_flat_map.
    exists (i, ("base_case"%string, scenario_cfg)). split; [exact Hi|].
    apply in_flat_map. exists 0%nat. split; [apply in_seq; lia|].
    unfold replication_samples. cbn [fst snd]. rewrite Hs. now left. }
  rewrite Hnil in Hmem. destruct Hmem.
Qed.
End EngineTotal.

(** C6.  Two runs on the same configuration give the same result whatever
    entropy the machine offers, because every generator is made from an
    integer seed, and so does everything computed from the result (summary,
    decision matrix, rollout plan); the table is the concatenation, over the scenarios in
    order and the replications 0 .. n-1, of the rows of the strategies, the
    draws of scenario index i and replication r coming from one fresh
    generator seeded with random_seed + i * 10000 + r and shared by all
    strategies of the pair; and the engine returns a table as soon as there
    is a replication, a strategy and a scenario named base_case. *)
Theorem replication_engine_deterministic `{NumpyRandom}
  (config : SimConfig) (consumer : GermanConsumer) :
  (forall e1 e2 : nat -> nat -> entropy,
     run_replication_engine config consumer e1 = run_replication_engine config consumer e2)
  /\ (forall (T : Type)
        (downstream : option (list (Replication.Row R) * list (string * R)) -> T)
        (e1 e2 : nat -> nat -> entropy),
        downstream (run_replication_engine config consumer e1)
        = downstream (run_replication_engine config consumer e2))
  /\ (forall (e : nat -> nat -> entropy) result,
        run_replication_engine config consumer e = Some result ->
        fst result = spec_rows config consumer e)
  /\ (forall e : nat -> nat -> entropy,
        (0 < n_replications config)%nat ->
        strategy_options config <> [] ->
        In "base_case" (List.map fst (macro_scenarios config)) ->
        run_replication_engine config consumer e
        = Some (spec_rows config consumer e, concat (spec_samples config consumer e))).
Proof.
  assert (Hsame : forall e1 e2 : nat -> nat -> entropy,
             run_replication_engine config consumer e1
             = run_replication_engine config consumer e2).
  { intros e1 e2. rewrite !run_replication_engine_spec.
    now rewrite (spec_rows_entropy config consumer e1 e2),
      (spec_samples_entropy config consumer e1 e2). }
  split; [exact Hsame|]. split; [|split].
  - intros T downstream e1 e2. now rewrite (Hsame e1 e2).
  - intros e result. rewrite run_replication_engine_spec.
    destruct (spec_samples config consumer e); [discriminate|].
    intros [= <-]. reflexivity.
  - intros e Hrep Hstr Hbase. rewrite run_replication_engine_spec.
    pose proof (spec_samples_nonempty config consumer e Hrep Hstr Hbase) as Hnon.
    destruct (spec_samples config consumer e); [congruence|reflexivity].
Qed.

Lemma replication_engine_deterministic_witness :
  @run_replication_engine counter_random sample_sim_config sample_consumer (fun _ _ => tt)
  = Some (@spec_rows counter_random sample_sim_config sample_consumer (fun _ _ => tt),
          concat (@spec_samples counter_random sample_sim_config sample_consumer
                    (fun _ _ => tt))).
Proof.
  apply (proj2 (proj2 (proj2 (@replication_engine_deterministic counter_random
                                sample_sim_config sample_consumer)))).
  - simpl. lia.
  - discriminate.
  - simpl. left. reflexivity.
Defined.

(** * Worked examples *)

(** Capex 50, 60 and 40 with a usable budget of 90: the only pair the
    enumeration keeps is the first and the third city. *)
Example three_city_bundles :
  List.map ids (yearly_bundles (make_context three_city_cfg three_city_recs) 1)
  = [[0; 2]; [0]; [1]; [2]; []]%nat.
Proof. vm_compute. reflexivity. Qed.

Example three_city_plan :
  List.map (fun row => (city (rec row), rollout_year row))
    (build_city_portfolio three_city_cfg three_city_recs)
  = [("Munich"%string, 1%Z); ("Frankfurt"%string, 1%Z); ("Berlin"%string, (-1)%Z)].
Proof. vm_compute. reflexivity. Qed.

Example two_state_schedule :
  schedule (fst (run_optimizer (make_context two_state_cfg two_state_recs)))
  = [[0]; [1; 2]; []]%nat.
Proof. vm_compute. reflexivity. Qed.

Example combinations_of_four :
  combinations [0; 1; 2; 3]%nat 2 = [[0; 1]; [0; 2]; [0; 3]; [1; 2]; [1; 3]; [2; 3]]%nat.
Proof. reflexivity. Qed.

Example quantile_interpolates : (quantile [3; 1; 2; 5; 4] (10 # 100) == 7 # 5)%Q.
Proof. vm_compute. reflexivity. Qed.

Example cvar5_of_two :
  (quantile [-50000; 150000] (5 # 100) == -40000)%Q
  /\ (cvar5_of [-50000; 150000] == -50000)%Q.
Proof. split; vm_compute; reflexivity. Qed.

Example count_bits_examples :
  count_bits 0 = 0%Z /\ count_bits 7 = 3%Z /\ count_bits 10 = 2%Z /\ count_bits (-5) = 2%Z.
Proof. repeat split. Qed.

(** * Further properties of the rollout optimizer *)

Lemma assign_rollout_rows_status (cfg : PortfolioConfig) (recs : list CityRecommendation)
  (i : nat) (row : PlanRow) :
  assign_rollout cfg recs !! i = Some row ->
  exists r, recs !! i = Some r
    /\ ((exists s, s <> HARD_CONSTRAINED_SELECTION /\ row = set_status s (initial_row r))
        \/ exists st k c cid,
             run_optimizer (make_context cfg recs) = (st, None)
             /\ schedule st !! k = Some c /\ In cid c
             /\ target (make_context cfg recs) cid = i
             /\ row = set_wave (assign_for (make_context cfg recs) (S k) c (initial_row r))).
Proof.
  intros Hrow.
  destruct (List.filter is_candidate recs) as [|c0 cs] eqn:Hcand.
  - rewrite assign_rollout_no_candidates, lookup_map in Hrow by exact Hcand.
    destruct (recs !! i) as [r|]; [|discriminate]. injection Hrow as <-.
    exists r. split; [reflexivity|]. left.
    exists NO_FEASIBLE_GO_OR_CONDITIONAL_CITIES. split; [discriminate|reflexivity].
  - assert (Hne : List.filter is_candidate recs <> []) by congruence.
    destruct (optimization_feasible (make_context cfg recs)) eqn:Hf.
    + destruct (feasible_completes _ Hf) as (st & Hrun & _).
      rewrite (assign_rollout_feasible cfg recs st Hne Hf Hrun), lookup_map in Hrow.
      destruct (write_schedule _ _ _ _ !! i) as [row1|] eqn:Hw; [|discriminate].
      injection Hrow as <-.
      destruct (written_row_cases cfg recs st i row1 Hw) as (r & Hr & Hcase).
      exists r. split; [exact Hr|].
      destruct Hcase as [->|(k & c & cid & Hk & Hc & Ht & ->)].
      * left. exists UNASSIGNED. split; [discriminate|reflexivity].
      * right. exists st, k, c, cid. repeat split; assumption || reflexivity.
    + rewrite assign_rollout_infeasible, lookup_map in Hrow by assumption.
      destruct (recs !! i) as [r|]; [|discriminate]. injection Hrow as <-.
      exists r. split; [reflexivity|]. left.
      exists INFEASIBLE_CONSTRAINT_SET. split; [discriminate|reflexivity].
Qed.

Lemma wave_of_assigned_year (k : nat) : wave_of_year (Z.of_nat (S k)) <> Hold.
Proof.
  unfold wave_of_year.
  destruct (Z.eqb_spec (Z.of_nat (S k)) 1); [discriminate|].
  destruct ((Z.of_nat (S k) =? 2)%Z || (Z.of_nat (S k) =? 3)%Z); [discriminate|].
  destruct (Z.ltb_spec 0 (Z.of_nat (S k))); [discriminate|lia].
Qed.

Lemma plan_year_range (cfg : PortfolioConfig) (recs : list CityRecommendation)
  (row : PlanRow) :
  In row (build_city_portfolio cfg recs) ->
  rollout_year row = (-1)%Z
  \/ (1 <= rollout_year row <= Z.of_nat (planning_years (make_context cfg recs)))%Z.
Proof.
  intros Hin. apply portfolio_In in Hin. destruct Hin as (i & Hrow).
  destruct (assign_rollout_rows_status cfg recs i row Hrow) as (r & Hr & Hcase).
  destruct Hcase as [(s & Hs & ->)|(st & k & c & cid & Hrun & Hk & Hc & Ht & ->)].
  - now left.
  - right. destruct (run_optimizer_inv _ st Hrun) as (Hlen & _).
    pose proof (lookup_lt_Some _ _ _ Hk) as Hlt.
    cbn [rollout_year set_wave assign_for assign_row]. lia.
Qed.

(** Every row of the plan is of one of two kinds.  An unassigned row has
    year -1, wave Hold, no year columns, is not selected and does not carry
    the selection status.  An assigned row has a year between 1 and the
    number of planning years, a wave other than Hold, all four year columns,
    is selected, carries the selection status and belongs to a GO or
    CONDITIONAL city.  The wave is always the label of the year. *)
Theorem plan_rows_consistent (cfg : PortfolioConfig) (recs : list CityRecommendation)
  (row : PlanRow) :
  In row (build_city_portfolio cfg recs) ->
  In (rec row) recs
  /\ launch_wave row = wave_of_year (rollout_year row)
  /\ ((rollout_year row = (-1)%Z
       /\ launch_wave row = Hold
       /\ selected_by_optimizer row = false
       /\ optimization_status row <> HARD_CONSTRAINED_SELECTION
       /\ year_capex_budget_eur row = None /\ year_capex_used_eur row = None
       /\ year_risk_cap row = None /\ year_loss_risk_avg row = None)
      \/ ((1 <= rollout_year row <= Z.of_nat (planning_years (make_context cfg recs)))%Z
          /\ launch_wave row <> Hold
          /\ selected_by_optimizer row = true
          /\ optimization_status row = HARD_CONSTRAINED_SELECTION
          /\ is_candidate (rec row) = true
          /\ is_Some (year_capex_budget_eur row) /\ is_Some (year_capex_used_eur row)
          /\ is_Some (year_risk_cap row) /\ is_Some (year_loss_risk_avg row))).
Proof.
  intros Hin. apply portfolio_In in Hin. destruct Hin as (i & Hrow).
  destruct (assign_rollout_rows_status cfg recs i row Hrow) as (r & Hr & Hcase).
  assert (Hrec : In r recs)
    by (apply list_elem_of_In; eapply list_elem_of_lookup_2; exact Hr).
  destruct Hcase as [(s & Hs & ->)|(st & k & c & cid & Hrun & Hk & Hc & Ht & ->)].
  - split; [exact Hrec|]. split; [reflexivity|]. left. repeat split. exact Hs.
  - split; [exact Hrec|]. split; [reflexivity|]. right.
    destruct (run_optimizer_inv _ st Hrun) as (Hlen & _).
    pose proof (lookup_lt_Some _ _ _ Hk) as Hlt.
    pose proof (scheduled_candidate cfg recs st Hrun k c cid Hk Hc) as Hn.
    destruct (target_candidate cfg recs cid Hn) as (r' & Hr' & Hcand & _).
    rewrite Ht, Hr in Hr'. injection Hr' as <-.
    cbn [rollout_year launch_wave selected_by_optimizer optimization_status rec
         year_capex_budget_eur year_capex_used_eur year_risk_cap year_loss_risk_avg
         set_wave assign_for assign_row initial_row].
    split; [lia|]. split; [apply wave_of_assigned_year|].
    repeat split; eauto.
Qed.

Lemma plan_rows_consistent_witness :
  In (mk_city "Munich" "Bavaria" GO 10 (1 # 10) 50) two_state_recs.
Proof.
  apply (plan_rows_consistent two_state_cfg two_state_recs
           (nth 0 (build_city_portfolio two_state_cfg two_state_recs) no_row)).
  vm_compute. left. reflexivity.
Defined.

(** Without a planning year (one of the three yearly lists is empty) the
    loop never runs: nothing is assigned and no infeasibility is reported,
    whatever the diversification minimum; every row stays as initialised. *)
Theorem empty_horizon_assigns_nothing (cfg : PortfolioConfig)
  (recs : list CityRecommendation) :
  planning_years (make_context cfg recs) = 0%nat ->
  List.filter is_candidate recs <> [] ->
  optimization_feasible (make_context cfg recs) = true
  /\ Permutation (build_city_portfolio cfg recs) (List.map initial_row recs).
Proof.
  intros Hzero Hne.
  assert (Hrun : run_optimizer (make_context cfg recs) = (initial_state, None))
    by (unfold run_optimizer; now rewrite Hzero).
  assert (H3 : first3_years (make_context cfg recs) = 0%nat).
  { unfold make_context in *. cbn [first3_years planning_years] in *. lia. }
  assert (Hf : optimization_feasible (make_context cfg recs) = true).
  { unfold optimization_feasible. rewrite Hrun, H3. reflexivity. }
  split; [exact Hf|].
  rewrite (portfolio_perm cfg recs), (assign_rollout_feasible cfg recs _ Hne Hf Hrun).
  simpl. rewrite List.map_map. reflexivity.
Qed.

Lemma empty_horizon_assigns_nothing_witness :
  Permutation
    (build_city_portfolio
       {| annual_capex_budget_eur := []; budget_reserve_ratio := 0;
          max_new_cities_per_year := [1]%Z; annual_loss_risk_cap_cfg := [1 # 2]%Q;
          min_distinct_states_first3_years := 2 |} one_year_recs)
    (List.map initial_row one_year_recs).
Proof.
  apply empty_horizon_assigns_nothing.
  - reflexivity.
  - vm_compute. discriminate.
Defined.

(** ** The year columns of an assigned row *)

Lemma annual_budget_at (cfg : PortfolioConfig) (recs : list CityRecommendation) (k : nat) :
  (k < planning_years (make_context cfg recs))%nat ->
  nth k (annual_budgets (make_context cfg recs)) 0%Q
  = nth k (annual_capex_budget_eur cfg) 0%Q.
Proof. simpl. intros Hlt. now apply nth_firstn_lt. Qed.

(** The four year columns of an assigned row describe its year: the capex
    used is the sum of the capex estimates of all cities of that year, the
    loss risk average is the mean of their loss probabilities, the budget
    column is the gross budget of the year (before the reserve) and the risk
    cap column is the configured cap of the year. *)
Theorem year_columns_describe_year (cfg : PortfolioConfig)
  (recs : list CityRecommendation) (row : PlanRow) :
  In row (build_city_portfolio cfg recs) ->
  rollout_year row <> (-1)%Z ->
  exists used avg,
    year_capex_used_eur row = Some used
    /\ (used == qsum (List.map (fun r => capex_estimate_eur (rec r))
                        (assigned_to (build_city_portfolio cfg recs) (rollout_year row))))%Q
    /\ year_loss_risk_avg row = Some avg
    /\ (avg == qmean (List.map (fun r => city_prob_loss (rec r))
                        (assigned_to (build_city_portfolio cfg recs) (rollout_year row))))%Q
    /\ year_capex_budget_eur row
       = Some (nth (Z.to_nat (rollout_year row) - 1) (annual_capex_budget_eur cfg) 0%Q)
    /\ year_risk_cap row
       = Some (nth (Z.to_nat (rollout_year row) - 1) (annual_loss_risk_cap_cfg cfg) 0%Q).
Proof.
  intros Hin Hy.
  assert (Hne : assigned_to (build_city_portfolio cfg recs) (rollout_year row) <> []).
  { intros E.
    assert (Hrow : In row (assigned_to (build_city_portfolio cfg recs) (rollout_year row)))
      by (apply filter_In; split; [exact Hin|apply Z.eqb_refl]).
    rewrite E in Hrow. destruct Hrow. }
  destruct (assigned_year_schedule cfg recs _ Hy Hne)
    as (st & k & c & Hrun & Hk & Hc & Hyk & Hperm).
  apply portfolio_In in Hin. destruct Hin as (i & Hrow).
  destruct (assign_rollout_rows_status cfg recs i row Hrow) as (r & Hr & Hcase).
  destruct Hcase as [(s & _ & Hs)|(st' & k' & c' & cid & Hrun' & Hk' & Hc' & Ht & Hw)].
  - subst row. simpl in Hy. congruence.
  - assert (Hyear : rollout_year row = Z.of_nat (S k')) by (subst row; reflexivity).
    assert (k' = k) by lia. subst k'.
    rewrite Hrun in Hrun'. injection Hrun' as <-.
    rewrite Hk in Hk'. injection Hk' as <-.
    assert (Hlt : (k < planning_years (make_context cfg recs))%nat).
    { destruct (run_optimizer_inv _ st Hrun) as (Hlen & _).
      apply lookup_lt_Some in Hk. lia. }
    rewrite Hyk in *.
    replace (Z.to_nat (Z.of_nat (S k)) - 1)%nat with k by lia.
    exists (qsum (take_q (capex_arr (make_context cfg recs)) c)),
           (qmean (take_q (loss_arr (make_context cfg recs)) c)).
    split; [subst row; reflexivity|]. split.
    { rewrite (qsum_perm _ _ (Permutation_map _ Hperm)), List.map_map.
      cbn [rec set_wave].
      now rewrite (qsum_perm _ _ (year_capex cfg recs st Hrun k c Hk)). }
    split; [subst row; reflexivity|]. split.
    { rewrite (qmean_perm _ _ (Permutation_map _ Hperm)), List.map_map.
      cbn [rec set_wave].
      now rewrite (qmean_perm _ _ (year_loss cfg recs st Hrun k c Hk)). }
    split.
    + subst row. cbn [year_capex_budget_eur set_wave assign_for assign_row].
      replace (S k - 1)%nat with k by lia. f_equal. now apply annual_budget_at.
    + subst row. cbn [year_risk_cap set_wave assign_for assign_row].
      replace (S k - 1)%nat with k by lia. f_equal. now apply risk_cap_at.
Qed.

Lemma year_columns_describe_year_witness :
  exists used avg,
    year_capex_used_eur (nth 1 (build_city_portfolio two_state_cfg two_state_recs) no_row)
    = Some used
    /\ (used == 70)%Q
    /\ year_loss_risk_avg (nth 1 (build_city_portfolio two_state_cfg two_state_recs) no_row)
       = Some avg
    /\ (avg == 15 # 100)%Q.
Proof.
  destruct (year_columns_describe_year two_state_cfg two_state_recs
              (nth 1 (build_city_portfolio two_state_cfg two_state_recs) no_row))
    as (used & avg & Hu & Hus & Ha & Has & _).
  - vm_compute. right. left. reflexivity.
  - vm_compute. discriminate.
  - exists used, avg. split; [exact Hu|]. split.
    + rewrite Hus. vm_compute. reflexivity.
    + split; [exact Ha|]. rewrite Has. vm_compute. reflexivity.
Defined.

(** ** The final order of the plan *)

Section SortedBy.
Context {A : Type} (before : A -> A -> bool).
Hypothesis before_asym : forall a b, before a b = true -> before b a = false.
Hypothesis not_before_trans :
  forall a b c, before b a = false -> before c b = false -> before c a = false.

Lemma insert_sorted_ordered (x : A) (l : list A) :
  StronglySorted (fun a b => before b a = false) l ->
  StronglySorted (fun a b => before b a = false) (insert_sorted before x l).
Proof.
  induction 1 as [|y t Hs IH Hy]; simpl.
  - repeat constructor.
  - destruct (before y x) eqn:E.
    + constructor; [exact IH|].
      apply List.Forall_forall. intros z Hz.
      apply (Permutation_in _ (insert_sorted_perm before x t)) in Hz.
      destruct Hz as [<-|Hz]; [now apply before_asym|].
      rewrite List.Forall_forall in Hy. now apply Hy.
    + constructor; [now constructor|].
      constructor; [exact E|].
      rewrite List.Forall_forall in Hy |- *. intros z Hz.
      apply (not_before_trans x y z); [exact E|now apply Hy].
Qed.

Lemma stable_sort_ordered (l : list A) :
  StronglySorted (fun a b => before b a = false) (stable_sort before l).
Proof.
  induction l as [|x t IH]; simpl; [constructor|].
  now apply insert_sorted_ordered.
Qed.
End SortedBy.

Lemma strongly_sorted_lookup {A : Type} (R : A -> A -> Prop) (l : list A) :
  StronglySorted R l ->
  forall i j a b, (i < j)%nat -> l !! i = Some a -> l !! j = Some b -> R a b.
Proof.
  induction 1 as [|x t Hs IH Hx]; intros i j a b Hij Ha Hb; [discriminate|].
  destruct j as [|j]; [lia|]. simpl in Hb.
  destruct i as [|i]; simpl in Ha.
  - injection Ha as <-. rewrite List.Forall_forall in Hx. apply Hx.
    apply list_elem_of_In. eapply list_elem_of_lookup_2. exact Hb.
  - apply (IH i j); [lia|assumption|assumption].
Qed.

Lemma plan_before_false (a b : PlanRow) : plan_before b a = false <-> plan_order a b.
Proof.
  unfold plan_before, plan_order.
  destruct (Z.ltb_spec (rollout_sort b) (rollout_sort a)) as [L1|L1].
  { split; [discriminate|]. intros [L|(E & _)]; lia. }
  destruct (Z.ltb_spec (rollout_sort a) (rollout_sort b)) as [L2|L2].
  { split; [now left|reflexivity]. }
  assert (E : rollout_sort a = rollout_sort b) by lia.
  destruct (Qgtb (portfolio_objective_eur (rec b)) (portfolio_objective_eur (rec a))) eqn:G1.
  { apply Qgtb_true in G1. split; [discriminate|].
    intros [L|(_ & [L|(Q1 & _)])]; [lia|exfalso; qlra|exfalso; qlra]. }
  apply Qgtb_false in G1.
  destruct (Qgtb (portfolio_objective_eur (rec a)) (portfolio_objective_eur (rec b))) eqn:G2.
  { apply Qgtb_true in G2. split; [|reflexivity]. intros _. right. split; [exact E|now left]. }
  apply Qgtb_false in G2.
  destruct (Qgtb (risk_adjusted_city_score (rec b)) (risk_adjusted_city_score (rec a))) eqn:G3.
  { apply Qgtb_true in G3. split; [discriminate|].
    intros [L|(_ & [L|(_ & L)])]; [lia|exfalso; qlra|exfalso; qlra]. }
  apply Qgtb_false in G3. split; [|reflexivity].
  intros _. right. split; [exact E|]. right. split; [qlra|exact G3].
Qed.

Lemma plan_order_trans (a b c : PlanRow) : plan_order a b -> plan_order b c -> plan_order a c.
Proof.
  unfold plan_order.
  intros [L1|(E1 & [O1|(Q1 & R1)])] [L2|(E2 & [O2|(Q2 & R2)])];
    try (left; lia);
    right; (split; [lia|]);
    try (left; qlra).
  right. split; qlra.
Qed.

Lemma plan_before_asym (a b : PlanRow) : plan_before a b = true -> plan_before b a = false.
Proof.
  intros H. apply plan_before_false.
  destruct (plan_before b a) eqn:E; [|now apply plan_before_false].
  exfalso. revert H E. unfold plan_before.
  destruct (Z.ltb_spec (rollout_sort a) (rollout_sort b)),
           (Z.ltb_spec (rollout_sort b) (rollout_sort a)); try lia; try discriminate.
  destruct (Qgtb (portfolio_objective_eur (rec a)) (portfolio_objective_eur (rec b))) eqn:G1,
           (Qgtb (portfolio_objective_eur (rec b)) (portfolio_objective_eur (rec a))) eqn:G2;
    try discriminate.
  - apply Qgtb_true in G1, G2. qlra.
  - intros G3 G4. apply Qgtb_true in G3, G4. qlra.
Qed.

(** The plan is returned in rollout order: a row never stands behind a row
    with a later sort year, within a year never behind one with a smaller
    portfolio objective, and among equal objectives never behind one with a
    smaller risk-adjusted score.  Unassigned rows sort as year 99, so with
    fewer than 99 planning years every row behind an unassigned row is
    unassigned: the assigned cities come first. *)
Theorem final_plan_ordered (cfg : PortfolioConfig) (recs : list CityRecommendation)
  (i j : nat) (a b : PlanRow) :
  (i < j)%nat ->
  build_city_portfolio cfg recs !! i = Some a ->
  build_city_portfolio cfg recs !! j = Some b ->
  plan_order a b
  /\ ((planning_years (make_context cfg recs) < 99)%nat ->
      rollout_year a = (-1)%Z -> rollout_year b = (-1)%Z).
Proof.
  intros Hij Ha Hb.
  assert (Hord : plan_order a b).
  { apply plan_before_false.
    refine (strongly_sorted_lookup (fun x y => plan_before y x = false) _ _
              i j a b Hij Ha Hb).
    apply stable_sort_ordered.
    - apply plan_before_asym.
    - intros x y z H1 H2. apply plan_before_false.
      apply plan_before_false in H1, H2. now apply (plan_order_trans x y z). }
  split; [exact Hord|]. intros Hyears Hyear.
  assert (Hin : In b (build_city_portfolio cfg recs))
    by (apply list_elem_of_In; eapply list_elem_of_lookup_2; exact Hb).
  destruct (plan_year_range cfg recs b Hin) as [Hb1|Hb1]; [exact Hb1|].
  exfalso.
  assert (Hle : (rollout_sort a <= rollout_sort b)%Z)
    by (destruct Hord as [L|(E & _)]; lia).
  unfold rollout_sort in Hle. rewrite Hyear in Hle. simpl in Hle.
  destruct (Z.ltb_spec (rollout_year b) 0); lia.
Qed.

Lemma final_plan_ordered_witness :
  plan_order (nth 0 (build_city_portfolio two_state_cfg two_state_recs) no_row)
    (nth 3 (build_city_portfolio two_state_cfg two_state_recs) no_row).
Proof.
  apply (final_plan_ordered two_state_cfg two_state_recs 0 3).
  - lia.
  - reflexivity.
  - reflexivity.
Defined.

(** ** The bundle enumeration is complete and the yearly choice is best *)

Lemma combinations_complete {A : Type} (c l : list A) :
  sublist c l -> In c (combinations l (length c)).
Proof.
  induction 1 as [|x c l _ IH|x c l _ IH].
  - now left.
  - simpl. apply in_or_app. left. now apply in_map.
  - destruct c as [|y c]; [destruct l; now left|].
    simpl. apply in_or_app. right. exact IH.
Qed.

Lemma combinations_sublist {A : Type} (l : list A) :
  forall k c, In c (combinations l k) -> sublist c l.
Proof.
  induction l as [|x t IH]; intros [|k] c Hc; simpl in Hc.
  - destruct Hc as [<-|[]]. constructor.
  - destruct Hc.
  - destruct Hc as [<-|[]]. apply sublist_nil_l.
  - apply in_app_or in Hc. destruct Hc as [Hc|Hc].
    + apply in_map_iff in Hc. destruct Hc as (c' & <- & Hc').
      apply sublist_skip. now apply (IH k).
    + apply sublist_cons. now apply (IH (S k)).
Qed.

Lemma in_omap_Some {A B : Type} (f : A -> option B) (l : list A) (x : A) (y : B) :
  In x l -> f x = Some y -> In y (omap f l).
Proof.
  intros Hx Hf. apply list_elem_of_In. apply list_elem_of_omap.
  exists x. split; [now apply list_elem_of_In|exact Hf].
Qed.

Lemma yearly_bundles_complete (ctx : OptContext) (year : nat) (c : list nat) (b : Bundle) :
  sublist c (seq 0 (n_candidates ctx)) ->
  (1 <= Z.of_nat (length c) <= nth (year - 1) (max_new_per_year ctx) 0)%Z ->
  make_bundle ctx (nth (year - 1) (usable_budgets ctx) 0%Q)
    (nth (year - 1) (annual_loss_risk_cap ctx) 0%Q) c = Some b ->
  In b (yearly_bundles ctx year).
Proof.
  intros Hsub Hlen Hb. unfold yearly_bundles. apply stable_sort_In. right.
  apply in_flat_map. exists (length c). split.
  - apply in_seq.
    pose proof (sublist_length _ _ Hsub) as Hn. rewrite length_seq in Hn. lia.
  - unfold bundles_of_size. eapply in_omap_Some; [|exact Hb].
    now apply combinations_complete.
Qed.

Lemma scan_best_bound (ctx : OptContext) (year : nat) (st : OptState) (l : list Bundle) :
  forall best,
    match best with
    | Some (b0, s0) => s0 = bonus_score ctx year st b0
    | None => True
    end ->
    forall b s,
      fold_left (scan_step ctx year st) l best = Some (b, s) ->
      s = bonus_score ctx year st b
      /\ (forall b0 s0, best = Some (b0, s0) -> (s0 <= s)%Q)
      /\ (forall b', In b' l -> survives ctx year st b' = true ->
                     (bonus_score ctx year st b' <= s)%Q).
Proof.
  induction l as [|x t IH]; intros best Hwf b s Hf; simpl in Hf.
  - subst best. split; [exact Hwf|]. split.
    + intros b0 s0 E. injection E as _ <-. apply Qle_refl.
    + intros b' [].
  - assert (Hwf' : match scan_step ctx year st best x with
                   | Some (b0, s0) => s0 = bonus_score ctx year st b0
                   | None => True
                   end).
    { unfold scan_step. destruct (survives ctx year st x); [|exact Hwf].
      destruct best as [[b0 s0]|]; [|reflexivity].
      destruct (Qgtb _ s0); [reflexivity|exact Hwf]. }
    destruct (IH _ Hwf' b s Hf) as (Hs & Hprev & Hrest).
    split; [exact Hs|]. split.
    + intros b0 s0 ->. unfold scan_step in Hprev.
      destruct (survives ctx year st x); [|now apply (Hprev b0)].
      destruct (Qgtb (bonus_score ctx year st x) s0) eqn:G.
      * apply Qgtb_true in G.
        pose proof (Hprev _ _ eq_refl) as Hle. qlra.
      * now apply (Hprev b0).
    + intros b' [<-|Hin] Hsurv; [|now apply Hrest].
      unfold scan_step in Hprev. rewrite Hsurv in Hprev.
      destruct best as [[b0 s0]|]; [|now apply (Hprev x)].
      destruct (Qgtb (bonus_score ctx year st x) s0) eqn:G.
      * now apply (Hprev x).
      * apply Qgtb_false in G. pose proof (Hprev _ _ eq_refl) as Hle. qlra.
Qed.

Lemma select_best_bundle_max (ctx : OptContext) (year : nat) (st : OptState)
  (best b : Bundle) :
  select_best_bundle ctx year st = Some best ->
  In b (yearly_bundles ctx year) -> survives ctx year st b = true ->
  (bonus_score ctx year st b <= bonus_score ctx year st best)%Q.
Proof.
  unfold select_best_bundle. intros Hsel Hin Hsurv.
  destruct (fold_left _ _ None) as [[b0 s0]|] eqn:Hf; [|discriminate].
  simpl in Hsel. injection Hsel as ->.
  destruct (scan_best_bound ctx year st _ None I _ _ Hf) as (-> & _ & Hmax).
  now apply Hmax.
Qed.

(** The choice of a year is the best one available.  Take any set of
    candidates (ids in increasing order) of at least one and at most the
    year's number of new cities, within the year's usable budget and risk cap
    (so that the enumeration builds its bundle), that shares no city with
    the earlier years and passes the diversification tests.  Its score with
    the diversification bonus is then at most that of the bundle chosen. *)
Theorem yearly_choice_is_best (ctx : OptContext) (year : nat) (st : OptState)
  (best : Bundle) (c : list nat) (b : Bundle) :
  select_best_bundle ctx year st = Some best ->
  sublist c (seq 0 (n_candidates ctx)) ->
  (1 <= Z.of_nat (length c) <= nth (year - 1) (max_new_per_year ctx) 0)%Z ->
  make_bundle ctx (nth (year - 1) (usable_budgets ctx) 0%Q)
    (nth (year - 1) (annual_loss_risk_cap ctx) 0%Q) c = Some b ->
  survives ctx year st b = true ->
  (bonus_score ctx year st b <= bonus_score ctx year st best)%Q.
Proof.
  intros Hsel Hsub Hlen Hb Hsurv.
  apply (select_best_bundle_max ctx year st best b Hsel); [|exact Hsurv].
  now apply (yearly_bundles_complete ctx year c b).
Qed.

Lemma yearly_choice_is_best_witness :
  exists best b,
    select_best_bundle (make_context three_city_cfg three_city_recs) 1 initial_state
    = Some best
    /\ ids b = [2%nat]
    /\ (bonus_score (make_context three_city_cfg three_city_recs) 1 initial_state b
        <= bonus_score (make_context three_city_cfg three_city_recs) 1 initial_state best)%Q.
Proof.
  destruct (select_best_bundle (make_context three_city_cfg three_city_recs) 1
              initial_state) as [best|] eqn:Hsel; [|vm_compute in Hsel; discriminate].
  destruct (make_bundle (make_context three_city_cfg three_city_recs)
              (nth 0 (usable_budgets (make_context three_city_cfg three_city_recs)) 0%Q)
              (nth 0 (annual_loss_risk_cap (make_context three_city_cfg three_city_recs)) 0%Q)
              [2%nat]) as [b|] eqn:Hb; [|vm_compute in Hb; discriminate].
  exists best, b. split; [reflexivity|]. split.
  - vm_compute in Hb. injection Hb as <-. reflexivity.
  - apply (yearly_choice_is_best _ 1 initial_state best [2%nat] b Hsel).
    + vm_compute. apply sublist_cons, sublist_cons, sublist_skip, sublist_nil.
    + vm_compute. split; discriminate.
    + exact Hb.
    + vm_compute in Hb. injection Hb as <-. vm_compute. reflexivity.
Defined.
